(** * Synergy ID allocator and inventory explosion engine

    A shallow embedding of the allocation code of the repository:
    - [src/fastapi/routes_synergy.py]: [fmt_synergy], [log_synergy_event],
      [_get_next_synergy_code], [_get_true_max_seq], [synergy_preview],
      [mint_synergy], [explode_by_line], [prefix_peek], [prefix_reset],
      [prefix_take], [prefix_set];
    - [src/fastapi/db_utils.py]: the [db()] context manager;
    - [src/main.py] (module [Legacy] below): [fmt_synergy], [_take_synergy],
      [prefix_set]; [src/scraper-py/app.py] has the same [fmt_synergy].

    The PostgreSQL database behind the cursor is a record of tables; a
    statement either succeeds with its effect on the tables or raises and
    leaves them as they were.  Python exceptions are the left summand of
    the result of every cursor-using function. *)

From Stdlib Require Import ZArith String Ascii Decimal DecimalString DecimalZ Lia.
From stdpp Require Import gmap strings list fin_maps.

#[local] Open Scope string_scope.
#[local] Open Scope Z_scope.

(* ===================================================================== *)
(** ** Python string primitives *)
(* ===================================================================== *)

Module Py.

(** [str(int(seq))]: the decimal numeral, ["-"] in front of a negative
    one, no leading zero. *)
Definition str_int (z : Z) : string := NilZero.string_of_int (Z.to_int z).

Fixpoint zeros (n : nat) : string :=
  match n with
  | O => EmptyString
  | S n' => String "0" (zeros n')
  end.

Definition is_sign (c : ascii) : bool :=
  (Ascii.eqb c "+" || Ascii.eqb c "-")%bool.

(** [str.zfill(width)]: strings of length at least [width] come back as
    they are; shorter ones are padded with zeros on the left, after a
    leading sign character if there is one. *)
Definition zfill (width : nat) (s : string) : string :=
  let n := String.length s in
  if (width <=? n)%nat then s
  else
    let pad := zeros (width - n) in
    match s with
    | String c rest => if is_sign c then String c (pad ++ rest) else pad ++ s
    | EmptyString => pad
    end.

(** Whitespace removed by [str.strip()] (the ASCII part of it). *)
Definition is_space (c : ascii) : bool :=
  let n := nat_of_ascii c in
  ((9 <=? n) && (n <=? 13) || (28 <=? n) && (n <=? 32))%nat%bool.

Fixpoint lstrip (s : string) : string :=
  match s with
  | String c rest => if is_space c then lstrip rest else s
  | EmptyString => EmptyString
  end.

(** [rstrip] keeps a character when it is not a space or when something
    that is kept follows it. *)
Fixpoint rstrip (s : string) : string :=
  match s with
  | String c rest =>
      match rstrip rest with
      | EmptyString => if is_space c then EmptyString else String c EmptyString
      | kept => String c kept
      end
  | EmptyString => EmptyString
  end.

Definition strip (s : string) : string := rstrip (lstrip s).

(** Truthiness of [Optional[str]]: [None] and the empty string are falsy. *)
Definition truthy_str (o : option string) : bool :=
  match o with
  | Some (String _ _) => true
  | _ => false
  end.

(** [a or b] on optional strings. *)
Definition or_str (a b : option string) : option string :=
  if truthy_str a then a else b.

(** [x or ''] on an optional string. *)
Definition or_empty (o : option string) : string :=
  match o with
  | Some s => s
  | None => EmptyString
  end.

(** [x or d] on an optional integer: [None] and [0] are falsy. *)
Definition or_int (o : option Z) (d : Z) : Z :=
  match o with
  | Some 0 | None => d
  | Some z => z
  end.

End Py.

(* ===================================================================== *)
(** ** SQL scalar functions used by the recovery scan *)
(* ===================================================================== *)

Module Sql.

Definition backslash : ascii := ascii_of_nat 92.

(** [s LIKE pat]: [%] matches any run of characters, [_] any single one,
    a backslash takes the next pattern character literally.  (A pattern
    that ends in a lone backslash is an error in PostgreSQL; the patterns
    built here end in ["-%"], so that case is never reached and is given
    [false].) *)
Fixpoint like (pat s : string) {struct pat} : bool :=
  match pat with
  | EmptyString =>
      match s with EmptyString => true | _ => false end
  | String p pat' =>
      if Ascii.eqb p "%" then
        (fix any (t : string) : bool :=
           (like pat' t ||
            match t with
            | String _ t' => any t'
            | EmptyString => false
            end)%bool) s
      else if Ascii.eqb p "_" then
        match s with
        | String _ s' => like pat' s'
        | EmptyString => false
        end
      else if Ascii.eqb p backslash then
        match pat' with
        | String q pat'' =>
            match s with
            | String c s' => (Ascii.eqb q c && like pat'' s')%bool
            | EmptyString => false
            end
        | EmptyString => false
        end
      else
        match s with
        | String c s' => (Ascii.eqb p c && like pat' s')%bool
        | EmptyString => false
        end
  end.

(** The text before the first ['-'] and the text after it, if any. *)
Fixpoint cut_dash (s : string) : string * option string :=
  match s with
  | EmptyString => (EmptyString, None)
  | String c rest =>
      if Ascii.eqb c "-" then (EmptyString, Some rest)
      else let '(hd, tl) := cut_dash rest in (String c hd, tl)
  end.

(** [SPLIT_PART(s, '-', 2)]: the second field, [''] when there is none. *)
Definition split_part_2 (s : string) : string :=
  match snd (cut_dash s) with
  | Some rest => fst (cut_dash rest)
  | None => EmptyString
  end.

(** [NULLIF(x, '')]. *)
Definition nullif_empty (s : string) : option string :=
  match s with
  | EmptyString => None
  | _ => Some s
  end.

Definition is_space (c : ascii) : bool :=
  let n := nat_of_ascii c in
  ((9 <=? n) && (n <=? 13) || (n =? 32))%nat%bool.

Definition digit_val (c : ascii) : option Z :=
  let n := nat_of_ascii c in
  if ((48 <=? n) && (n <=? 57))%nat%bool then Some (Z.of_nat n - 48) else None.

Fixpoint skip_spaces (s : string) : string :=
  match s with
  | String c rest => if is_space c then skip_spaces rest else s
  | EmptyString => EmptyString
  end.

(** Reads the longest run of digits: its value, how many digits it has
    and the text that follows. *)
Fixpoint read_digits (acc : Z) (n : nat) (s : string) : Z * nat * string :=
  match s with
  | String c rest =>
      match digit_val c with
      | Some d => read_digits (10 * acc + d) (S n) rest
      | None => (acc, n, s)
      end
  | EmptyString => (acc, n, s)
  end.

(** [CAST(s AS INTEGER)] on text: optional blanks, an optional sign, at
    least one decimal digit, optional blanks; [None] is the error
    "invalid input syntax for type integer" or "out of range". *)
Definition cast_integer (s : string) : option Z :=
  let s1 := skip_spaces s in
  let '(neg, s2) :=
    match s1 with
    | String c rest =>
        if Ascii.eqb c "-" then (true, rest)
        else if Ascii.eqb c "+" then (false, rest)
        else (false, s1)
    | EmptyString => (false, s1)
    end in
  let '(v, n, s3) := read_digits 0 0 s2 in
  match n, skip_spaces s3 with
  | S _, EmptyString =>
      let v' := if neg : bool then - v else v in
      if (Z.leb (-2147483648) v' && Z.leb v' 2147483647)%bool then Some v' else None
  | _, _ => None
  end.

End Sql.

(* ===================================================================== *)
(** ** Code formatting *)
(* ===================================================================== *)

(** [fmt_synergy] of [routes_synergy.py]: five digits. *)
Definition fmt_synergy (prefix : string) (seq : Z) : string :=
  prefix ++ "-" ++ Py.zfill 5 (Py.str_int seq).

(* ===================================================================== *)
(** ** The database behind the cursor *)
(* ===================================================================== *)

(** UUID keys are kept as their 128-bit value; PostgreSQL orders them by
    that value. *)
Abbreviation uuid := N.

Inductive table : Set :=
| id_prefix_counters_t
| po_lines_t
| inventory_items_t
| categories_t
| synergy_id_events_t.

#[global] Instance table_eq_dec : EqDecision table.
Proof. solve_decision. Defined.

(** What a statement does to a table. *)
Inductive access : Set := Read | Write.

#[global] Instance access_eq_dec : EqDecision access.
Proof. solve_decision. Defined.

(** The [raw_json] payload of a line (the import pipeline writes a JSON
    object): the two members [explode_by_line] reads, as JSON text. *)
Record raw_json : Set := {
  rj_specs : option string;
  rj_item_notes : option string;
}.

(** Row of [po_lines].  Prices ([NUMERIC]) are counted in their smallest
    unit. *)
Record po_line : Set := {
  pl_id : uuid;
  pl_purchase_order_id : uuid;
  pl_created_at : option Z;
  pl_qty : option Z;
  pl_product_name_raw : option string;
  pl_category_guess : option uuid;
  pl_synergy_id : option string;
  pl_unit_cost : option Z;
  pl_msrp : option Z;
  pl_raw_json : option raw_json;
}.

(** Row of [inventory_items].  The table declarations are not part of the
    source tree: the explosion insert writes the code into column
    [synergy_code] while the recovery scan selects column [synergy_id] of
    the same table; following the docstring of [_get_true_max_seq] ("the
    highest sequence we have for this prefix, across inventory_items and
    po_lines") both name the item's code here. *)
Record inventory_item : Set := {
  ii_synergy_code : option string;
  ii_purchase_order_id : option uuid;
  ii_po_line_id : option uuid;
  ii_category_id : option uuid;
  ii_cost_unit : Z;
  ii_msrp : Z;
  ii_status : string;
  ii_specs : string;
  ii_tester_comment : option string;
}.

Record category : Set := {
  c_id : uuid;
  c_prefix : option string;
}.

(** The [meta] dictionaries the three event writers build. *)
Inductive event_meta : Set :=
| MetaSource (source : string)
| MetaSafeNext (safe_next : Z)
| MetaManual (old_next new_next : Z) (reason : option string).

(** Row of [synergy_id_events] as [log_synergy_event] inserts it. *)
Record synergy_event : Set := {
  ev_actor_name : option string;
  ev_po_id : option uuid;
  ev_po_line_id : option uuid;
  ev_inventory_id : option uuid;
  ev_prefix : string;
  ev_code : string;
  ev_seq : Z;
  ev_event_type : string;
  ev_meta : event_meta;
}.

(** The tables, and the accesses that are out of order: a statement that
    needs one of those raises.  [id_prefix_counters] has [prefix] as its
    key ([ON CONFLICT (prefix)]) and a nullable [next_seq]. *)
Record db : Type := {
  id_prefix_counters : gmap string (option Z);
  po_lines : list po_line;
  inventory_items : list inventory_item;
  categories : list category;
  synergy_id_events : list synergy_event;
  outage : list (table * access);
}.

Definition set_counters (f : gmap string (option Z) → gmap string (option Z)) (s : db) : db :=
  {| id_prefix_counters := f (id_prefix_counters s);
     po_lines := po_lines s;
     inventory_items := inventory_items s;
     categories := categories s;
     synergy_id_events := synergy_id_events s;
     outage := outage s |}.

Definition set_po_lines (f : list po_line → list po_line) (s : db) : db :=
  {| id_prefix_counters := id_prefix_counters s;
     po_lines := f (po_lines s);
     inventory_items := inventory_items s;
     categories := categories s;
     synergy_id_events := synergy_id_events s;
     outage := outage s |}.

Definition set_inventory_items (f : list inventory_item → list inventory_item) (s : db) : db :=
  {| id_prefix_counters := id_prefix_counters s;
     po_lines := po_lines s;
     inventory_items := f (inventory_items s);
     categories := categories s;
     synergy_id_events := synergy_id_events s;
     outage := outage s |}.

Definition set_events (f : list synergy_event → list synergy_event) (s : db) : db :=
  {| id_prefix_counters := id_prefix_counters s;
     po_lines := po_lines s;
     inventory_items := inventory_items s;
     categories := categories s;
     synergy_id_events := f (synergy_id_events s);
     outage := outage s |}.

(* ===================================================================== *)
(** ** Exceptions and the cursor monad *)
(* ===================================================================== *)

(** The [detail] of an [HTTPException]: a plain message, or the dictionary
    [{"message": ..., "safe_next": ...}] of [prefix_set]. *)
Inductive http_detail : Set :=
| DetailText (message : string)
| DetailSafeNext (message : string) (safe_next : Z).

Inductive exn : Set :=
| DatabaseError (t : table)
| DataError (text : string)
| UniqueViolation (code : string)
| TypeError
| NameError (name : string)
| HTTPException (status_code : Z) (detail : http_detail).

(** A computation with the cursor: it raises, or returns a value and the
    tables as the statements executed so far have left them. *)
Definition M (A : Type) : Type := db → exn + (A * db).

#[global] Instance M_ret : MRet M := λ A a s, inr (a, s).
#[global] Instance M_bind : MBind M := λ A B f m s,
  match m s with
  | inl e => inl e
  | inr (a, s') => f a s'
  end.

Definition raise {A} (e : exn) : M A := λ _, inl e.

(** [try: body except Exception: handler]; the statement that raised has
    left the tables as they were. *)
Definition try_except {A} (body handler : M A) : M A := λ s,
  match body s with
  | inl _ => handler s
  | inr r => inr r
  end.

(** Every statement first needs its accesses to be in order. *)
Definition touch (t : table) (a : access) : M unit := λ s,
  if bool_decide ((t, a) ∈ outage s) then inl (DatabaseError t) else inr (tt, s).

Definition get_db : M db := λ s, inr (s, s).
Definition modify_db (f : db → db) : M unit := λ s, inr (tt, f s).

(** [with db() as (con, cur): body] of [db_utils.py]: commit when the body
    returns, roll back and re-raise when it raises. *)
Definition with_db {A} (body : M A) (s : db) : (exn + A) * db :=
  match body s with
  | inr (a, s') => (inr a, s')
  | inl e => (inl e, s)
  end.

(* ===================================================================== *)
(** ** Statements *)
(* ===================================================================== *)

(** [SELECT next_seq FROM id_prefix_counters WHERE prefix = %s] (with or
    without [FOR UPDATE]) and [fetchone()]: no row, or the row's nullable
    [next_seq]. *)
Definition select_next_seq (prefix : string) : M (option (option Z)) :=
  _ ← touch id_prefix_counters_t Read;
  s ← get_db;
  mret (id_prefix_counters s !! prefix).

(** [INSERT INTO id_prefix_counters(prefix, next_seq) VALUES (%s, %s)
    ON CONFLICT (prefix) DO UPDATE SET next_seq = EXCLUDED.next_seq]. *)
Definition upsert_next_seq (prefix : string) (next_seq : Z) : M unit :=
  _ ← touch id_prefix_counters_t Write;
  modify_db (set_counters (λ m, <[prefix := Some next_seq]> m)).

(** The code column the scan reads in each of the two tables. *)
Definition synergy_id_column (t : table) (s : db) : list (option string) :=
  match t with
  | inventory_items_t => ii_synergy_code <$> inventory_items s
  | po_lines_t => pl_synergy_id <$> po_lines s
  | _ => []
  end.

(** [CAST(NULLIF(SPLIT_PART(synergy_id, '-', 2), '') AS INTEGER)] of one
    row: [NULL], an integer, or the cast's error. *)
Definition seq_of_code (code : string) : exn + option Z :=
  match Sql.nullif_empty (Sql.split_part_2 code) with
  | None => inr None
  | Some text =>
      match Sql.cast_integer text with
      | Some v => inr (Some v)
      | None => inl (DataError text)
      end
  end.

(** [MAX] skips [NULL]s and is [NULL] on no value. *)
Definition sql_max2 (a b : option Z) : option Z :=
  match a, b with
  | Some x, Some y => Some (Z.max x y)
  | Some x, None => Some x
  | None, b => b
  end.

Fixpoint max_seq_of (codes : list string) : exn + option Z :=
  match codes with
  | [] => inr None
  | code :: rest =>
      match seq_of_code code with
      | inl e => inl e
      | inr v =>
          match max_seq_of rest with
          | inl e => inl e
          | inr m => inr (sql_max2 v m)
          end
      end
  end.

(** The rows [WHERE synergy_id LIKE prefix || '-%'] keeps ([NULL] codes
    never match). *)
Definition matching_codes (prefix : string) (col : list (option string)) : list string :=
  List.filter (Sql.like (prefix ++ "-%")) (omap id col).

(** [SELECT COALESCE(MAX(CAST(NULLIF(SPLIT_PART(synergy_id, '-', 2), '')
    AS INTEGER)), 0) AS max_seq FROM {table} WHERE synergy_id LIKE %s]
    with the parameter [prefix + "-%"]. *)
Definition select_max_seq (t : table) (prefix : string) : M Z :=
  _ ← touch t Read;
  s ← get_db;
  match max_seq_of (matching_codes prefix (synergy_id_column t s)) with
  | inl e => raise e
  | inr m => mret (default 0 m)
  end.

(** [for table in tables: ... true_max_seq = max(true_max_seq,
    int(max_seq))], the loop shared by [_get_next_synergy_code],
    [_get_true_max_seq] and [max_seq_for_prefix]. *)
Fixpoint scan_tables (tables : list table) (prefix : string) (true_max_seq : Z) : M Z :=
  match tables with
  | [] => mret true_max_seq
  | t :: rest =>
      max_seq ← select_max_seq t prefix;
      scan_tables rest prefix (Z.max true_max_seq max_seq)
  end.

Definition _get_true_max_seq (prefix : string) : M Z :=
  scan_tables [inventory_items_t; po_lines_t] prefix 0.

(** [log_synergy_event]: one [INSERT INTO synergy_id_events]. *)
Definition log_synergy_event
    (event_type prefix : string) (seq : Z) (code : string)
    (actor_name : option string) (po_id po_line_id inventory_id : option uuid)
    (meta : event_meta) : M unit :=
  _ ← touch synergy_id_events_t Write;
  modify_db (set_events (λ evs, (evs ++
    [{| ev_actor_name := actor_name;
        ev_po_id := po_id;
        ev_po_line_id := po_line_id;
        ev_inventory_id := inventory_id;
        ev_prefix := prefix;
        ev_code := code;
        ev_seq := seq;
        ev_event_type := event_type;
        ev_meta := meta |}])%list)).

(* ===================================================================== *)
(** ** The allocator *)
(* ===================================================================== *)

(** The sequence number [_get_next_synergy_code] reserves: the counter
    row's [next_seq] when there is one, else one more than the highest
    sequence found in the data. *)
Definition reserve_seq (prefix : string) : M Z :=
  row ← select_next_seq prefix;
  match row with
  | Some (Some next_seq) => mret next_seq
  | _ =>
      true_max_seq ← scan_tables [inventory_items_t; po_lines_t] prefix 0;
      mret (true_max_seq + 1)
  end.

Definition _get_next_synergy_code
    (prefix : string) (actor_name : option string)
    (po_id po_line_id inventory_id : option uuid) : M string :=
  next_seq ← reserve_seq prefix;
  let new_code := fmt_synergy prefix next_seq in
  _ ← upsert_next_seq prefix (next_seq + 1);
  _ ← try_except
        (log_synergy_event "mint" prefix next_seq new_code
           actor_name po_id po_line_id inventory_id
           (MetaSource "_get_next_synergy_code"))
        (mret tt);
  mret new_code.

(** The call [_get_next_synergy_code(cur, prefix)] every caller in the
    module makes: no keyword argument. *)
Definition next_code (prefix : string) : M string :=
  _get_next_synergy_code prefix None None None None.

(* ===================================================================== *)
(** ** Prefix counter endpoints *)
(* ===================================================================== *)

(** [POST /prefix/{prefix}/take]. *)
Definition prefix_take (prefix : string) : db → (exn + string) * db :=
  with_db (next_code prefix).

(** The [next] member of a request body: absent, a value [int()] turns
    into the integer given, or a value [int()] raises on. *)
Inductive body_next : Set :=
| NextAbsent
| NextInt (z : Z)
| NextInvalid.

Record set_body : Set := {
  sb_next : body_next;
  sb_actor : option string;
  sb_actor_name : option string;
  sb_reason : option string;
}.

(** [int(body.get("next", 1))]; [None] when [int] raises. *)
Definition int_of_next (n : body_next) : option Z :=
  match n with
  | NextAbsent => Some 1
  | NextInt z => Some z
  | NextInvalid => None
  end.

Definition unsafe_next_message (prefix : string) (nxt safe_min_next : Z) : string :=
  "Cannot set next sequence for prefix " ++ prefix ++ " to " ++ Py.str_int nxt ++ " "
  ++ "because IDs up to " ++ Py.str_int (safe_min_next - 1) ++ " may already exist. "
  ++ "The minimum safe value is " ++ Py.str_int safe_min_next ++ ".".

(** The body of [prefix_set] under [with db()]. *)
Definition prefix_set_body (prefix : string) (nxt : Z) (body : set_body) : M Z :=
  let actor := Py.or_str (sb_actor body) (sb_actor_name body) in
  let reason := sb_reason body in
  row ← select_next_seq prefix;
  let old_next := Py.or_int (row ≫= id) 0 in
  true_max_seq ← _get_true_max_seq prefix;
  let safe_min_next := Z.max (true_max_seq + 1) (Py.or_int (Some old_next) 1) in
  if (nxt <? safe_min_next)%Z then
    raise (HTTPException 400
             (DetailSafeNext (unsafe_next_message prefix nxt safe_min_next) safe_min_next))
  else
    _ ← upsert_next_seq prefix nxt;
    let code_preview := fmt_synergy prefix nxt in
    _ ← log_synergy_event "manual_set_next" prefix nxt code_preview actor None None None
          (MetaManual old_next nxt reason);
    mret nxt.

(** [POST /prefix/{prefix}/set]; the value returned is the ["next"] of the
    response [{"ok": True, "next": nxt}]. *)
Definition prefix_set (prefix : string) (body : set_body) (s : db) : (exn + Z) * db :=
  match int_of_next (sb_next body) with
  | None => (inl (HTTPException 400 (DetailText "next must be an integer")), s)
  | Some nxt =>
      if (nxt <? 1)%Z then (inl (HTTPException 400 (DetailText "next must be >= 1")), s)
      else with_db (prefix_set_body prefix nxt body) s
  end.

(** [POST /synergy-id/prefix/{prefix}/reset]; returns the ["next"] of the
    response. *)
Definition prefix_reset (prefix : string) (actor actor_name : option string)
  : db → (exn + Z) * db :=
  with_db (
    let actor := Py.or_str actor actor_name in
    true_max_seq ← _get_true_max_seq prefix;
    let safe_next := true_max_seq + 1 in
    _ ← upsert_next_seq prefix safe_next;
    _ ← log_synergy_event "reset_to_default" prefix safe_next
          (fmt_synergy prefix safe_next) actor None None None (MetaSafeNext safe_next);
    mret safe_next).

(** What a module-level name of [routes_synergy.py] is bound to, as far as
    [prefix_peek] can use it: a function from the cursor and a prefix to
    an integer, or something else. *)
Inductive pyobj : Type :=
| PyScan (f : string → M Z)
| PyOther.

(** The names bound at module level in [routes_synergy.py], in the order
    of the file: its imports, then its definitions.  (No builtin is called
    [_get_starting_seq_for_prefix] either.) *)
Definition module_globals : list (string * pyobj) :=
  [ ("re", PyOther); ("json", PyOther); ("UUID", PyOther);
    ("Optional", PyOther); ("List", PyOther); ("Dict", PyOther); ("Any", PyOther);
    ("APIRouter", PyOther); ("HTTPException", PyOther); ("Query", PyOther);
    ("Body", PyOther); ("Response", PyOther); ("psycopg2", PyOther);
    ("BaseModel", PyOther); ("datetime", PyOther);
    ("db", PyOther); ("_uuid_list", PyOther); ("_row_val", PyOther); ("to_num", PyOther);
    ("_broadcast", PyOther); ("router", PyOther);
    ("fmt_synergy", PyOther); ("SynergyIdEvent", PyOther);
    ("log_synergy_event", PyOther); ("_get_next_synergy_code", PyOther);
    ("_get_true_max_seq", PyScan _get_true_max_seq);
    ("synergy_preview", PyOther); ("mint_synergy", PyOther); ("mint_stats", PyOther);
    ("explode_by_line", PyOther); ("ExplodeGroupBody", PyOther); ("explode_group", PyOther);
    ("prefix_peek", PyOther); ("prefix_reset", PyOther); ("prefix_take", PyOther);
    ("prefix_set", PyOther); ("synergy_id_overview", PyOther);
    ("synergy_id_events", PyOther) ].

Fixpoint lookup_global (name : string) (globals : list (string * pyobj)) : option pyobj :=
  match globals with
  | [] => None
  | (n, v) :: rest => if String.eqb n name then Some v else lookup_global name rest
  end.

(** Calling the global [name] with [(cur, prefix)]. *)
Definition call_global (name : string) (prefix : string) : M Z :=
  match lookup_global name module_globals with
  | None => raise (NameError name)
  | Some (PyScan f) => f prefix
  | Some PyOther => raise TypeError
  end.

(** [GET /prefix/{prefix}/peek] of [routes_synergy.py]. *)
Definition prefix_peek (prefix : string) : db → (exn + string) * db :=
  with_db (
    start ← call_global "_get_starting_seq_for_prefix" prefix;
    let next_seq := start + 1 in
    mret (fmt_synergy prefix next_seq)).

(* ===================================================================== *)
(** ** Queries over the lines of a purchase order *)
(* ===================================================================== *)

(** [ORDER BY]: insertion into an ordered list, rows that compare equal
    keep the order of the table. *)
Fixpoint insert_by {A} (leb : A → A → bool) (x : A) (l : list A) : list A :=
  match l with
  | [] => [x]
  | y :: rest => if leb x y then x :: l else y :: insert_by leb x rest
  end.

Definition order_by {A} (leb : A → A → bool) (l : list A) : list A :=
  foldr (insert_by leb) [] l.

(** [c.prefix] of [LEFT JOIN categories c ON c.id = pl.category_guess]. *)
Definition joined_prefix (s : db) (category_guess : option uuid) : option string :=
  cat_id ← category_guess;
  c ← List.find (λ c, N.eqb (c_id c) cat_id) (categories s);
  c_prefix c.

(** [COALESCE(pl.created_at, NOW()) ASC, pl.id ASC]. *)
Definition created_then_id (now : Z) (a b : po_line) : bool :=
  let ta := default now (pl_created_at a) in
  let tb := default now (pl_created_at b) in
  (Z.ltb ta tb || (Z.eqb ta tb && N.leb (pl_id a) (pl_id b)))%bool.

Definition by_id (a b : po_line) : bool := N.leb (pl_id a) (pl_id b).

Definition in_ids (ids : list uuid) (x : uuid) : bool :=
  existsb (N.eqb x) ids.

(* ===================================================================== *)
(** ** Preview *)
(* ===================================================================== *)

Record preview : Set := {
  pv_line_id : uuid;
  pv_product_name_raw : option string;
  pv_prefix : string;
  pv_qty : Z;
  pv_codes : list string;
  pv_note : option string;
}.

(** The closure [max_seq_for_prefix] of [synergy_preview]; the dictionary
    [seq_by_prefix] it closes over is passed in and handed back. *)
Definition max_seq_for_prefix (prefix : string) (seq_by_prefix : gmap string Z)
  : M (Z * gmap string Z) :=
  if (bool_decide (prefix = EmptyString) || bool_decide (is_Some (seq_by_prefix !! prefix)))%bool
  then mret (default 0 (seq_by_prefix !! prefix), seq_by_prefix)
  else
    max_seq ← scan_tables [inventory_items_t; po_lines_t] prefix 0;
    mret (max_seq, <[prefix := max_seq]> seq_by_prefix).

(** One turn of [for r in rows] in [synergy_preview]. *)
Definition preview_row (s0 : db) (r : po_line) (seq_by_prefix : gmap string Z)
  : M (preview * gmap string Z) :=
  let line_id := pl_id r in
  let qty := Py.or_int (Some (Py.or_int (pl_qty r) 1)) 1 in
  let name_raw := pl_product_name_raw r in
  let prefix := Py.strip (Py.or_empty (joined_prefix s0 (pl_category_guess r))) in
  if bool_decide (prefix = EmptyString) then
    mret ({| pv_line_id := line_id; pv_product_name_raw := name_raw;
             pv_prefix := EmptyString; pv_qty := qty; pv_codes := [];
             pv_note := Some "No category prefix; cannot preview." |},
          seq_by_prefix)
  else
    '(m, seq_by_prefix) ← max_seq_for_prefix prefix seq_by_prefix;
    let start := m + 1 in
    let codes := (λ i, prefix ++ "-" ++ Py.zfill 5 (Py.str_int (start + i))) <$> seqZ 0 qty in
    let seq_by_prefix := <[prefix := start + qty - 1]> seq_by_prefix in
    mret ({| pv_line_id := line_id; pv_product_name_raw := name_raw;
             pv_prefix := prefix; pv_qty := qty; pv_codes := codes;
             pv_note := None |},
          seq_by_prefix).

Fixpoint preview_rows (s0 : db) (rows : list po_line) (seq_by_prefix : gmap string Z)
  : M (list preview) :=
  match rows with
  | [] => mret []
  | r :: rest =>
      '(p, seq_by_prefix) ← preview_row s0 r seq_by_prefix;
      ps ← preview_rows s0 rest seq_by_prefix;
      mret (p :: ps)
  end.

(** [POST /pos/{po_id}/synergy_preview]; [line_ids] is what [_uuid_list]
    keeps of the payload, [now] the clock of [NOW()]. *)
Definition synergy_preview (now : Z) (po_id : uuid) (line_ids : list uuid) (s : db)
  : (exn + list preview) * db :=
  match line_ids with
  | [] => (inr [], s)
  | _ =>
      with_db (
        _ ← touch po_lines_t Read;
        _ ← touch categories_t Read;
        s0 ← get_db;
        let rows :=
          order_by (created_then_id now)
            (List.filter (λ pl, (N.eqb (pl_purchase_order_id pl) po_id
                                 && in_ids line_ids (pl_id pl))%bool)
               (po_lines s0)) in
        preview_rows s0 rows ∅) s
  end.

(* ===================================================================== *)
(** ** Mint *)
(* ===================================================================== *)

Definition with_synergy_id (code : option string) (pl : po_line) : po_line :=
  {| pl_id := pl_id pl;
     pl_purchase_order_id := pl_purchase_order_id pl;
     pl_created_at := pl_created_at pl;
     pl_qty := pl_qty pl;
     pl_product_name_raw := pl_product_name_raw pl;
     pl_category_guess := pl_category_guess pl;
     pl_synergy_id := code;
     pl_unit_cost := pl_unit_cost pl;
     pl_msrp := pl_msrp pl;
     pl_raw_json := pl_raw_json pl |}.

(** [UPDATE po_lines SET synergy_id = %s WHERE <cond>]. *)
Definition update_synergy_id (cond : po_line → bool) (code : option string) : M unit :=
  _ ← touch po_lines_t Write;
  modify_db (set_po_lines (map (λ pl, if cond pl then with_synergy_id code pl else pl))).

(** One turn of [for r in rows_to_mint]; [r] is the pair [(id, c.prefix)]
    the query selected. *)
Definition mint_row (r : uuid * option string) (updated : Z) : M Z :=
  let '(line_id, row_prefix) := r in
  let prefix := Py.strip (Py.or_empty row_prefix) in
  if bool_decide (prefix = EmptyString) then mret updated
  else
    code ← next_code prefix;
    _ ← update_synergy_id (λ pl, N.eqb (pl_id pl) line_id) (Some code);
    mret (updated + 1).

Fixpoint mint_rows (rows : list (uuid * option string)) (updated : Z) : M Z :=
  match rows with
  | [] => mret updated
  | r :: rest =>
      updated ← mint_row r updated;
      mint_rows rest updated
  end.

(** [POST /pos/{po_id}/mint_synergy]; returns the ["updated"] of the
    response. *)
Definition mint_synergy (now : Z) (po_id : uuid) (line_ids : list uuid) (overwrite : bool)
  : db → (exn + Z) * db :=
  with_db (
    _ ← (if overwrite then
           match line_ids with
           | [] => update_synergy_id (λ pl, N.eqb (pl_purchase_order_id pl) po_id) None
           | _ => update_synergy_id (λ pl, in_ids line_ids (pl_id pl)) None
           end
         else mret tt);
    _ ← touch po_lines_t Read;
    _ ← touch categories_t Read;
    s0 ← get_db;
    let rows_to_mint :=
      (λ pl, (pl_id pl, joined_prefix s0 (pl_category_guess pl))) <$>
      order_by (created_then_id now)
        (List.filter (λ pl, (N.eqb (pl_purchase_order_id pl) po_id
                             && match line_ids with [] => true | _ => in_ids line_ids (pl_id pl) end
                             && bool_decide (pl_synergy_id pl = None))%bool)
           (po_lines s0)) in
    mint_rows rows_to_mint 0).

(* ===================================================================== *)
(** ** Explosion *)
(* ===================================================================== *)

(** Modelled from the spec: the declaration of table [inventory_items] is
    not in the source tree; the persisted state of the spec has
    [items.synergy_code (unique)], so an insert of a code some row already
    carries raises.  The new row goes after the rows of the table. *)
Definition insert_inventory_item (it : inventory_item) : M unit :=
  _ ← touch inventory_items_t Write;
  s ← get_db;
  match ii_synergy_code it with
  | Some code =>
      if bool_decide (Some code ∈ ii_synergy_code <$> inventory_items s)
      then raise (UniqueViolation code)
      else modify_db (set_inventory_items (λ its, (its ++ [it])%list))
  | None => modify_db (set_inventory_items (λ its, (its ++ [it])%list))
  end.

Definition of_po (po_id : uuid) (it : inventory_item) : bool :=
  bool_decide (ii_purchase_order_id it = Some po_id).

(** [{str(r["po_line_id"]): int(r["n"]) for r in cur.fetchall()}] over
    [SELECT po_line_id, COUNT( * ) AS n ... GROUP BY po_line_id]. *)
Definition count_step (it : inventory_item) (m : gmap (option uuid) Z) : gmap (option uuid) Z :=
  <[ii_po_line_id it := default 0 (m !! ii_po_line_id it) + 1]> m.

Definition existing_counts_of (po_id : uuid) (s : db) : gmap (option uuid) Z :=
  foldr count_step ∅ (List.filter (of_po po_id) (inventory_items s)).

(** [{r["synergy_code"] for r in cur.fetchall()}]; the lookups made in
    this set are of strings, so [NULL] codes are left out. *)
Definition existing_codes_of (po_id : uuid) (s : db) : gset string :=
  list_to_set (omap ii_synergy_code (List.filter (of_po po_id) (inventory_items s))).

(** Row of the third query of [explode_by_line]. *)
Record explode_row : Set := {
  xr_id : uuid;
  xr_qty : Z;
  xr_unit_cost : option Z;
  xr_msrp : option Z;
  xr_category_id : option uuid;
  xr_prefix : string;
  xr_synergy_id : option string;
  xr_raw_json : option raw_json;
}.

Definition explode_rows_of (po_id : uuid) (s : db) : list explode_row :=
  (λ pl, {| xr_id := pl_id pl;
            xr_qty := default 1 (pl_qty pl);
            xr_unit_cost := pl_unit_cost pl;
            xr_msrp := pl_msrp pl;
            xr_category_id := pl_category_guess pl;
            xr_prefix := default EmptyString (joined_prefix s (pl_category_guess pl));
            xr_synergy_id := pl_synergy_id pl;
            xr_raw_json := pl_raw_json pl |}) <$>
  order_by by_id (List.filter (λ pl, N.eqb (pl_purchase_order_id pl) po_id) (po_lines s)).

(** The loop state of [explode_by_line]: [created], [skipped] and the set
    [existing_codes], which the loop grows. *)
Record explode_acc : Type := {
  created : Z;
  skipped : Z;
  existing_codes : gset string;
}.

(** [qty = int(ln["qty"] or 1)]. *)
Definition row_qty (ln : explode_row) : Z := Py.or_int (Some (xr_qty ln)) 1.

(** [prefix = (ln["prefix"] or '').strip()]. *)
Definition row_prefix (ln : explode_row) : string := Py.strip (xr_prefix ln).

(** [not cat_id or not prefix]. *)
Definition uncategorised (ln : explode_row) : bool :=
  (bool_decide (xr_category_id ln = None) || bool_decide (row_prefix ln = EmptyString))%bool.

(** [specs] and [tester_comment] as parsed from [raw_json]; a missing or
    falsy [specs] member is [None] in the row and dumps as an empty
    object. *)
Definition row_specs (ln : explode_row) : string :=
  default "{}" (xr_raw_json ln ≫= rj_specs).

Definition row_tester_comment (ln : explode_row) : option string :=
  xr_raw_json ln ≫= rj_item_notes.

(** [for i in range(need)]: [n] turns for one line. *)
Fixpoint explode_units (po_id : uuid) (ln : explode_row) (n : nat) (acc : explode_acc)
  : M explode_acc :=
  match n with
  | O => mret acc
  | S n' =>
      let pre_minted := xr_synergy_id ln in
      '(code, codes) ←
        (if (Py.truthy_str pre_minted
             && bool_decide (Py.or_empty pre_minted ∉ existing_codes acc))%bool
         then mret (Py.or_empty pre_minted, {[Py.or_empty pre_minted]} ∪ existing_codes acc)
         else code ← next_code (row_prefix ln); mret (code, existing_codes acc));
      _ ← insert_inventory_item
            {| ii_synergy_code := Some code;
               ii_purchase_order_id := Some po_id;
               ii_po_line_id := Some (xr_id ln);
               ii_category_id := xr_category_id ln;
               ii_cost_unit := Py.or_int (xr_unit_cost ln) 0;
               ii_msrp := Py.or_int (xr_msrp ln) 0;
               ii_status := "INTAKE";
               ii_specs := row_specs ln;
               ii_tester_comment := row_tester_comment ln |};
      explode_units po_id ln n'
        {| created := created acc + 1; skipped := skipped acc; existing_codes := codes |}
  end.

(** [need = max(0, qty - have)] with [have = existing_counts.get(line_id, 0)]. *)
Definition row_need (existing_counts : gmap (option uuid) Z) (ln : explode_row) : Z :=
  let have := default 0 (existing_counts !! Some (xr_id ln)) in
  Z.max 0 (row_qty ln - have).

Definition skip_row (ln : explode_row) (acc : explode_acc) : explode_acc :=
  {| created := created acc;
     skipped := skipped acc + row_qty ln;
     existing_codes := existing_codes acc |}.

(** One turn of [for ln in rows]. *)
Definition explode_row_step (po_id : uuid) (existing_counts : gmap (option uuid) Z)
    (ln : explode_row) (acc : explode_acc) : M explode_acc :=
  if uncategorised ln then mret (skip_row ln acc)
  else
    let need := row_need existing_counts ln in
    if (need <=? 0)%Z then mret (skip_row ln acc)
    else explode_units po_id ln (Z.to_nat need) acc.

Fixpoint explode_rows (po_id : uuid) (existing_counts : gmap (option uuid) Z)
    (rows : list explode_row) (acc : explode_acc) : M explode_acc :=
  match rows with
  | [] => mret acc
  | ln :: rest =>
      acc ← explode_row_step po_id existing_counts ln acc;
      explode_rows po_id existing_counts rest acc
  end.

Record explode_result : Set := {
  xres_created : Z;
  xres_skipped : Z;
  xres_state : string;
}.

Definition explode_state (created skipped : Z) : string :=
  if ((0 <? created)%Z && (skipped =? 0)%Z)%bool then "done"
  else if (0 <? created)%Z then "partial" else "already".

(** The body of [explode_by_line] under [with db()]. *)
Definition explode_body (po_id : uuid) : M explode_result :=
  _ ← touch inventory_items_t Read;
  s0 ← get_db;
  let existing_counts := existing_counts_of po_id s0 in
  let existing_codes := existing_codes_of po_id s0 in
  _ ← touch po_lines_t Read;
  _ ← touch categories_t Read;
  let rows := explode_rows_of po_id s0 in
  acc ← explode_rows po_id existing_counts rows
          {| created := 0; skipped := 0; existing_codes := existing_codes |};
  mret {| xres_created := created acc;
          xres_skipped := skipped acc;
          xres_state := explode_state (created acc) (skipped acc) |}.

(** [POST /imports/{po_id}/explode-by-line]. *)
Definition explode_by_line (po_id : uuid) : db → (exn + explode_result) * db :=
  with_db (explode_body po_id).

(* ===================================================================== *)
(** ** Mint statistics *)
(* ===================================================================== *)

Record mint_stats_result : Set := {
  ms_total_qty : Z;
  ms_minted : Z;
  ms_pending : Z;
}.

(** The rows of the [line_totals] expression of [mint_stats]: id and
    [COALESCE(qty, 1)] of the lines of the order that have a positive
    quantity and a category. *)
Definition line_totals (po_id : uuid) (s : db) : list (uuid * Z) :=
  omap (λ pl,
          if (N.eqb (pl_purchase_order_id pl) po_id
              && (0 <? default 1 (pl_qty pl))%Z
              && bool_decide (pl_category_guess pl ≠ None))%bool
          then Some (pl_id pl, default 1 (pl_qty pl))
          else None)
       (po_lines s).

(** [line_totals lt LEFT JOIN minted m ON m.line_id = lt.line_id]: each
    line's quantity beside [COALESCE(m.minted, 0)]; [minted] groups the
    items of the order by line as the first query of [explode_by_line]
    does. *)
Definition totals_with_minted (po_id : uuid) (s : db) : list (Z * Z) :=
  (λ lt, (lt.2, default 0 (existing_counts_of po_id s !! Some lt.1)))
  <$> line_totals po_id s.

(** [COALESCE(SUM(x), 0)]. *)
Definition sql_sum (xs : list Z) : Z := foldr Z.add 0 xs.

(** [GET /pos/{po_id}/mint-stats] of [routes_synergy.py]. *)
Definition mint_stats (po_id : uuid) : db → (exn + mint_stats_result) * db :=
  with_db (
    _ ← touch po_lines_t Read;
    _ ← touch inventory_items_t Read;
    s ← get_db;
    let rows := totals_with_minted po_id s in
    mret {| ms_total_qty := sql_sum (fst <$> rows);
            ms_minted := sql_sum (snd <$> rows);
            ms_pending := sql_sum ((λ r, Z.max (r.1 - r.2) 0) <$> rows) |}).

(* ===================================================================== *)
(** ** The allocator of [main.py] *)
(* ===================================================================== *)

Module Legacy.

(** [fmt_synergy] of [main.py]: four digits. *)
Definition fmt_synergy (prefix : string) (seq : Z) : string :=
  prefix ++ "-" ++ Py.zfill 4 (Py.str_int seq).

(** [UPDATE id_prefix_counters SET next_seq = next_seq + 1 WHERE
    prefix = %s]. *)
Definition bump_next_seq (prefix : string) : M unit :=
  _ ← touch id_prefix_counters_t Write;
  modify_db (set_counters (alter (fmap Z.succ) prefix)).

(** [INSERT INTO id_prefix_counters(prefix, next_seq) VALUES (%s, %s)],
    issued when the [SELECT] found no row. *)
Definition insert_next_seq (prefix : string) (next_seq : Z) : M unit :=
  _ ← touch id_prefix_counters_t Write;
  modify_db (set_counters (λ m, <[prefix := Some next_seq]> m)).

(** [_take_synergy] of [main.py]; [fmt_synergy] calls [int] on the
    sequence, which raises on [None]. *)
Definition _take_synergy (prefix : string) : M string :=
  r ← select_next_seq prefix;
  match r with
  | Some next_seq =>
      _ ← bump_next_seq prefix;
      match next_seq with
      | Some n => mret (fmt_synergy prefix n)
      | None => raise TypeError
      end
  | None =>
      _ ← insert_next_seq prefix 2;
      mret (fmt_synergy prefix 1)
  end.

(** [POST /prefix/{prefix}/set] of [main.py], with [DATABASE_URL] set;
    [int] on a value it cannot convert raises outside any handler. *)
Definition prefix_set (prefix : string) (next : body_next) (s : db) : (exn + Z) * db :=
  match int_of_next next with
  | None => (inl TypeError, s)
  | Some nxt =>
      if (nxt <? 1)%Z then (inl (HTTPException 400 (DetailText "next must be >=1")), s)
      else with_db (_ ← upsert_next_seq prefix nxt; mret nxt) s
  end.

(** [GET /prefix/{prefix}/peek] of [main.py], with [DATABASE_URL] set:
    the row's [next_seq], 1 when there is no row; nothing is written. *)
Definition prefix_peek (prefix : string) : db → (exn + string) * db :=
  with_db (
    row ← select_next_seq prefix;
    match row with
    | Some (Some next_seq) => mret (fmt_synergy prefix next_seq)
    | Some None => raise TypeError
    | None => mret (fmt_synergy prefix 1)
    end).

(** [POST /prefix/{prefix}/take] of [main.py], with [DATABASE_URL] set:
    the statements of [_take_synergy], written out in the endpoint, and
    [con.commit()]. *)
Definition prefix_take (prefix : string) : db → (exn + string) * db :=
  with_db (_take_synergy prefix).

End Legacy.

(* ===================================================================== *)
(** ** The formatter of [scraper-py/app.py] *)
(* ===================================================================== *)

Module Scraper.

(** [fmt_synergy] of [scraper-py/app.py]. *)
Definition fmt_synergy (prefix : string) (seq : Z) : string :=
  prefix ++ "-" ++ Py.zfill 4 (Py.str_int seq).

End Scraper.

(* ===================================================================== *)
(** ** Vocabulary of the statements below *)
(* ===================================================================== *)

(** Reads back the number a padded numeral stands for. *)
Definition decode_numeral (s : string) : option Z := Z.of_int <$> NilEmpty.int_of_string s.



(** The sequence values present for [prefix] in the line table or in the
    item table: what the recovery scan reads off the matching codes. *)
Definition seq_present (prefix : string) (s : db) (v : Z) : Prop :=
  ∃ t code,
    t ∈ [inventory_items_t; po_lines_t] ∧
    code ∈ matching_codes prefix (synergy_id_column t s) ∧
    seq_of_code code = inr (Some v).

(** [next_seq] of [prefix], when its counter row holds one, is above
    every sequence value present for it. *)
Definition counter_above_data (prefix : string) (s : db) : Prop :=
  ∀ next_seq v,
    id_prefix_counters s !! prefix = Some (Some next_seq) →
    seq_present prefix s v → v < next_seq.

(** Between [s] and [s1] the counter row of [prefix], if it held a value,
    was neither removed nor lowered. *)
Definition counter_kept (prefix : string) (s s1 : db) : Prop :=
  ∀ c, id_prefix_counters s !! prefix = Some (Some c) →
    ∃ c1, id_prefix_counters s1 !! prefix = Some (Some c1) ∧ c ≤ c1.

(** How many rows of [inventory_items] belong to a line of an order. *)
Definition have_of (po_id : uuid) (line : option uuid) (items : list inventory_item) : Z :=
  Z.of_nat (length (List.filter
    (λ it, (of_po po_id it && bool_decide (ii_po_line_id it = line))%bool) items)).

(** An item that belongs to line [line] of order [po_id]. *)
Definition item_of_line (po_id line : uuid) (it : inventory_item) : Prop :=
  ii_purchase_order_id it = Some po_id ∧ ii_po_line_id it = Some line.

(** What the tables look like after some turns of the explosion loops:
    lines, categories and outages as before, items added at the end. *)
Definition grown_by (added : list inventory_item) (s s1 : db) : Prop :=
  po_lines s1 = po_lines s ∧ categories s1 = categories s ∧ outage s1 = outage s
  ∧ inventory_items s1 = (inventory_items s ++ added)%list.

(** The quantity a list of rows adds to [skipped] for want of a category. *)
Definition uncategorised_qty (rows : list explode_row) : Z :=
  foldr (λ ln acc, if uncategorised ln then row_qty ln + acc else acc) 0 rows.

Definition add_skipped (d : Z) (acc : explode_acc) : explode_acc :=
  {| created := created acc; skipped := skipped acc + d;
     existing_codes := existing_codes acc |}.

(** Applies [f] to the value a computation returned. *)
Definition on_result {A B} (f : A → B) (r : exn + (A * db)) : exn + (B * db) :=
  match r with
  | inl e => inl e
  | inr (a, s) => inr (f a, s)
  end.

(** *** Example tables *)

Definition item_with_code (code : string) : inventory_item :=
  {| ii_synergy_code := Some code; ii_purchase_order_id := None;
     ii_po_line_id := None; ii_category_id := None; ii_cost_unit := 0;
     ii_msrp := 0; ii_status := "INTAKE"; ii_specs := "{}";
     ii_tester_comment := None |}.

Definition line_of (po_id id : uuid) (created_at qty : Z) (category : option uuid)
    (code : option string) : po_line :=
  {| pl_id := id; pl_purchase_order_id := po_id; pl_created_at := Some created_at;
     pl_qty := Some qty; pl_product_name_raw := None; pl_category_guess := category;
     pl_synergy_id := code; pl_unit_cost := None; pl_msrp := None;
     pl_raw_json := None |}.

Definition empty_db : db :=
  {| id_prefix_counters := ∅; po_lines := []; inventory_items := [];
     categories := []; synergy_id_events := []; outage := [] |}.

(** Prefix [LAP] without a counter row; the codes [LAP-00001] to
    [LAP-00007] are spread over the item table and the line table. *)
Definition lap_scattered : db :=
  {| id_prefix_counters := ∅;
     po_lines := [ line_of 1 1 10 1 None (Some "LAP-00002");
                   line_of 1 2 20 1 None (Some "LAP-00006");
                   line_of 1 3 30 1 None (Some "LAP-00004") ];
     inventory_items := [ item_with_code "LAP-00007"; item_with_code "LAP-00001";
                          item_with_code "LAP-00005"; item_with_code "LAP-00003" ];
     categories := []; synergy_id_events := []; outage := [] |}.

(** Prefix [LAP] with [next_seq = 11] and the codes up to [LAP-00010] in
    use: [true_max_seq("LAP") = 10]. *)
Definition lap_ten : db :=
  {| id_prefix_counters := {[ "LAP" := Some 11 ]};
     po_lines := [ line_of 1 1 10 1 None (Some "LAP-00009") ];
     inventory_items := [ item_with_code "LAP-00010"; item_with_code "LAP-00008" ];
     categories := []; synergy_id_events := []; outage := [] |}.

(** A counter row that has fallen behind the data. *)
Definition lap_stale : db :=
  {| id_prefix_counters := {[ "LAP" := Some 3 ]};
     po_lines := [];
     inventory_items := [ item_with_code "LAP-00007" ];
     categories := []; synergy_id_events := []; outage := [] |}.

(** The worked example: fresh prefix [GEN], order 7 with two lines of
    quantity 2 and 3 in category 1. *)
Definition gen_fresh : db :=
  {| id_prefix_counters := ∅;
     po_lines := [ line_of 7 1 100 2 (Some 1%N) None;
                   line_of 7 2 200 3 (Some 1%N) None ];
     inventory_items := [];
     categories := [ {| c_id := 1; c_prefix := Some "GEN" |} ];
     synergy_id_events := []; outage := [] |}.

Definition gen_minted : db := snd (mint_synergy 0 7 [] false gen_fresh).
Definition gen_exploded : db := snd (explode_by_line 7 gen_minted).

(** An order with a line that has no category between two that have. *)
Definition mixed_order : db :=
  {| id_prefix_counters := ∅;
     po_lines := [ line_of 7 1 100 2 (Some 1%N) None;
                   line_of 7 2 200 4 None None;
                   line_of 7 3 300 1 (Some 1%N) None ];
     inventory_items := [];
     categories := [ {| c_id := 1; c_prefix := Some "GEN" |} ];
     synergy_id_events := []; outage := [] |}.

(** The row of the line without a category in [mixed_order]. *)
Definition row_without_category : explode_row :=
  {| xr_id := 2; xr_qty := 4; xr_unit_cost := None; xr_msrp := None;
     xr_category_id := None; xr_prefix := EmptyString; xr_synergy_id := None;
     xr_raw_json := None |}.

Definition fresh_acc : explode_acc :=
  {| created := 0; skipped := 0; existing_codes := ∅ |}.

(** The same tables with some accesses out of order. *)
Definition with_outage (o : list (table * access)) (s : db) : db :=
  {| id_prefix_counters := id_prefix_counters s;
     po_lines := po_lines s;
     inventory_items := inventory_items s;
     categories := categories s;
     synergy_id_events := synergy_id_events s;
     outage := o |}.

(** The row's [next_seq], 0 when there is no row or no value in it. *)
Definition current_next_seq (prefix : string) (s : db) : Z :=
  default 0 (id_prefix_counters s !! prefix ≫= id).

(** No character of the string is a dash. *)
Fixpoint no_dash (p : string) : bool :=
  match p with
  | EmptyString => true
  | String c rest => (negb (Ascii.eqb c "-") && no_dash rest)%bool
  end.

(** A prefix without dash and without the characters [LIKE] reads as
    wildcards or as escape. *)
Fixpoint plain (p : string) : bool :=
  match p with
  | EmptyString => true
  | String c rest =>
      (negb (Ascii.eqb c "-") && negb (Ascii.eqb c "%") && negb (Ascii.eqb c "_")
       && negb (Ascii.eqb c Sql.backslash) && plain rest)%bool
  end.

(** Two states of the database that differ at most in the counters and
    in the audit log. *)
Definition same_data (s s1 : db) : Prop :=
  po_lines s1 = po_lines s ∧ inventory_items s1 = inventory_items s
  ∧ categories s1 = categories s ∧ outage s1 = outage s.


(** The effective quantity of a line in [synergy_preview]. *)
Definition preview_qty (r : po_line) : Z :=
  Py.or_int (Some (Py.or_int (pl_qty r) 1)) 1.

(** The prefix [synergy_preview] and [mint_synergy] work with for a line. *)
Definition line_prefix (s : db) (pl : po_line) : string :=
  Py.strip (Py.or_empty (joined_prefix s (pl_category_guess pl))).

(** The same outcome, with the tables [s1] in place of those returned. *)
Definition moved_to {A} (s1 : db) (r : exn + A * db) : exn + A * db :=
  match r with
  | inl e => inl e
  | inr (a, _) => inr (a, s1)
  end.

(** The lines [synergy_preview] selects, in the order it works on them. *)
Definition preview_selection (now : Z) (po_id : uuid) (line_ids : list uuid) (s : db)
  : list po_line :=
  order_by (created_then_id now)
    (List.filter (λ pl, (N.eqb (pl_purchase_order_id pl) po_id
                         && in_ids line_ids (pl_id pl))%bool)
       (po_lines s)).


Definition no_body (next : body_next) : set_body :=
  {| sb_next := next; sb_actor := None; sb_actor_name := None; sb_reason := None |}.

(** The item [explode_by_line] inserts for one unit of row [ln] under
    [code]. *)
Definition unit_item (po_id : uuid) (ln : explode_row) (code : string) : inventory_item :=
  {| ii_synergy_code := Some code;
     ii_purchase_order_id := Some po_id;
     ii_po_line_id := Some (xr_id ln);
     ii_category_id := xr_category_id ln;
     ii_cost_unit := Py.or_int (xr_unit_cost ln) 0;
     ii_msrp := Py.or_int (xr_msrp ln) 0;
     ii_status := "INTAKE";
     ii_specs := row_specs ln;
     ii_tester_comment := row_tester_comment ln |}.

(** The rows of [rows_to_mint] that receive a code: those with a prefix
    left after [strip]. *)
Definition minted_ids (rows : list (uuid * option string)) : list uuid :=
  fst <$> List.filter (λ r, negb (bool_decide (Py.strip (Py.or_empty r.2) = EmptyString))) rows.

(** The lines [mint_synergy] selects when it does not overwrite. *)
Definition mint_selection (now : Z) (po_id : uuid) (line_ids : list uuid) (s : db)
  : list po_line :=
  order_by (created_then_id now)
    (List.filter (λ pl, (N.eqb (pl_purchase_order_id pl) po_id
                         && match line_ids with [] => true | _ => in_ids line_ids (pl_id pl) end
                         && bool_decide (pl_synergy_id pl = None))%bool)
       (po_lines s)).

(** Between [s] and [s1] the audit log has only grown at its end. *)
Definition log_extended (s s1 : db) : Prop :=
  ∃ new, synergy_id_events s1 = (synergy_id_events s ++ new)%list.


(** What a loop over [rows] adds to the items of line [k]: the need of
    every row of that line that has a category. *)
Definition needed_for (counts : gmap (option uuid) Z) (k : option uuid)
    (rows : list explode_row) : Z :=
  sql_sum ((λ ln, if (bool_decide (Some (xr_id ln) = k) && negb (uncategorised ln))%bool
                  then row_need counts ln else 0) <$> rows).

(* ===================================================================== *)
(** * Properties *)
(* ===================================================================== *)

(** ** The primitives on examples *)

Example zfill_examples :
  Py.zfill 5 "8" = "00008" ∧ Py.zfill 5 "-8" = "-0008" ∧ Py.zfill 5 "123456" = "123456"
  ∧ Py.zfill 4 EmptyString = "0000".
Proof. repeat split; reflexivity. Qed.

Example str_int_examples :
  Py.str_int 0 = "0" ∧ Py.str_int 45 = "45" ∧ Py.str_int (-45) = "-45".
Proof. repeat split; reflexivity. Qed.

Example like_examples :
  Sql.like "LAP-%" "LAP-00001" = true ∧ Sql.like "LAP-%" "LAP-" = true
  ∧ Sql.like "LAP-%" "LAPTOP-00001" = false ∧ Sql.like "LAP-%" "XLAP-00001" = false.
Proof. repeat split; reflexivity. Qed.

Example split_part_examples :
  Sql.split_part_2 "LAP-00001" = "00001" ∧ Sql.split_part_2 "LAP-00001-X" = "00001"
  ∧ Sql.split_part_2 "LAP" = EmptyString ∧ Sql.split_part_2 "LAP-" = EmptyString.
Proof. repeat split; reflexivity. Qed.

Example cast_integer_examples :
  Sql.cast_integer "00017" = Some 17 ∧ Sql.cast_integer " +17 " = Some 17
  ∧ Sql.cast_integer "1x" = None ∧ Sql.cast_integer "99999999999" = None.
Proof. repeat split; reflexivity. Qed.

(** ** Strings and code formatting *)

Section Formatting.

Lemma append_nil_l (s : string) : EmptyString ++ s = s.
Proof. reflexivity. Qed.

Lemma append_cons_l (c : ascii) (a b : string) : String c a ++ b = String c (a ++ b).
Proof. reflexivity. Qed.

Lemma append_cancel_l (p a b : string) : p ++ a = p ++ b → a = b.
Proof.
  induction p as [|c p IH]; rewrite ?append_nil_l, ?append_cons_l; [done|].
  intros [= H]. auto.
Qed.

Lemma uint_of_zeros (n : nat) (s : string) :
  NilEmpty.uint_of_string (Py.zeros n ++ s)
  = Nat.iter n D0 <$> NilEmpty.uint_of_string s.
Proof.
  induction n as [|n IH]; cbn [Py.zeros]; rewrite ?append_nil_l, ?append_cons_l.
  - by destruct (NilEmpty.uint_of_string s).
  - cbn [NilEmpty.uint_of_string]. rewrite IH.
    by destruct (NilEmpty.uint_of_string s).
Qed.

Lemma of_uint_zeros (n : nat) (d : uint) : Z.of_uint (Nat.iter n D0 d) = Z.of_uint d.
Proof. induction n as [|n IH]; cbn; [done|]. exact IH. Qed.

(** [str(int(z))] has no empty numeral in it. *)
Lemma str_int_nilempty (z : Z) : Py.str_int z = NilEmpty.string_of_int (Z.to_int z).
Proof.
  unfold Py.str_int, Z.to_int, NilZero.string_of_int.
  destruct z as [|p|p]; [reflexivity| |];
    (destruct (Pos.to_uint p) eqn:E; try reflexivity;
     exfalso; revert E; apply DecimalPos.Unsigned.to_uint_nonnil).
Qed.

Lemma string_of_uint_head (d : uint) (c : ascii) (rest : string) :
  NilEmpty.string_of_uint d = String c rest → Py.is_sign c = false.
Proof. destruct d; cbn; intros [= <- _]; reflexivity. Qed.

Lemma decode_pad_uint (n : nat) (d : uint) :
  (0 < n)%nat → decode_numeral (Py.zeros n ++ NilEmpty.string_of_uint d) = Some (Z.of_uint d).
Proof.
  intros Hn. unfold decode_numeral, NilEmpty.int_of_string.
  destruct n as [|n]; [lia|].
  cbn [Py.zeros]. rewrite append_cons_l.
  change (Ascii.eqb "0" "-") with false. cbv iota.
  rewrite <- append_cons_l. change (String "0" (Py.zeros n)) with (Py.zeros (S n)).
  rewrite uint_of_zeros, NilEmpty.usu. cbn [fmap option_fmap option_map].
  f_equal. unfold Z.of_int. apply of_uint_zeros.
Qed.

Lemma decode_pad_neg (n : nat) (d : uint) :
  decode_numeral (String "-" (Py.zeros n ++ NilEmpty.string_of_uint d)) = Some (- Z.of_uint d).
Proof.
  unfold decode_numeral, NilEmpty.int_of_string.
  change (Ascii.eqb "-" "-") with true. cbv iota.
  rewrite uint_of_zeros, NilEmpty.usu. cbn [fmap option_fmap option_map].
  f_equal. unfold Z.of_int. by rewrite of_uint_zeros.
Qed.

(** Padding never changes the number a numeral stands for. *)
Lemma decode_zfill (w : nat) (z : Z) : decode_numeral (Py.zfill w (Py.str_int z)) = Some z.
Proof.
  rewrite str_int_nilempty.
  assert (Hid : decode_numeral (NilEmpty.string_of_int (Z.to_int z)) = Some z).
  { unfold decode_numeral. rewrite NilEmpty.isi. cbn. by rewrite DecimalZ.of_to. }
  unfold Py.zfill. case_match; [done|].
  rewrite <- (DecimalZ.of_to z) at 2.
  destruct (Z.to_int z) as [d|d]; cbn [NilEmpty.string_of_int] in *.
  - destruct (NilEmpty.string_of_uint d) as [|c rest] eqn:E.
    + destruct d; try discriminate. apply Nat.leb_gt in H.
      cbn [String.length] in *. change (Z.of_int (Pos Nil)) with (Z.of_uint Nil).
      rewrite <- (decode_pad_uint (w - 0) Nil) by lia. cbn [NilEmpty.string_of_uint].
      f_equal. induction (w - 0)%nat as [|k IH]; [done|].
      cbn [Py.zeros]. rewrite append_cons_l. by f_equal.
    + rewrite (string_of_uint_head _ _ _ E). apply Nat.leb_gt in H.
      rewrite <- E in *. apply decode_pad_uint. lia.
  - change (Py.is_sign "-") with true. cbv iota. cbn [String.length].
    apply decode_pad_neg.
Qed.

(** For one prefix, different sequence numbers give different codes. *)
Lemma fmt_synergy_inj (p : string) (a b : Z) :
  fmt_synergy p a = fmt_synergy p b → a = b.
Proof.
  unfold fmt_synergy. intros H. apply append_cancel_l, append_cancel_l in H.
  apply (f_equal decode_numeral) in H. rewrite !decode_zfill in H. congruence.
Qed.

(** Below 10000 the two paddings differ on every sequence number that
    has fewer than five characters. *)
Lemma zfill_5_4_differ_below :
  forallb (λ z, negb (String.eqb (Py.zfill 5 (Py.str_int z)) (Py.zfill 4 (Py.str_int z))))
    (seqZ (-999) 10999) = true.
Proof. vm_compute. reflexivity. Qed.

Lemma zfill_5_4_differ (seq : Z) :
  -1000 < seq < 10000 →
  Py.zfill 5 (Py.str_int seq) ≠ Py.zfill 4 (Py.str_int seq).
Proof.
  intros Hr. pose proof zfill_5_4_differ_below as H.
  rewrite forallb_forall in H. specialize (H seq).
  rewrite <- list_elem_of_In, elem_of_seqZ in H.
  specialize (H ltac:(lia)). apply negb_true_iff, String.eqb_neq in H. exact H.
Qed.

End Formatting.

(** The three formatters at sequence 8 and at sequence 10000. *)
Example fmt_synergy_8 :
  fmt_synergy "LAP" 8 = "LAP-00008" ∧ Legacy.fmt_synergy "LAP" 8 = "LAP-0008"
  ∧ Scraper.fmt_synergy "LAP" 8 = "LAP-0008".
Proof. repeat split; reflexivity. Qed.

Example fmt_synergy_10000 :
  fmt_synergy "LAP" 10000 = "LAP-10000" ∧ Legacy.fmt_synergy "LAP" 10000 = "LAP-10000".
Proof. split; reflexivity. Qed.

(** C10: for every prefix and every sequence number from 0 up to 9999 the
    five-digit [fmt_synergy] of [routes_synergy.py] and the four-digit
    [fmt_synergy] of [main.py] return different codes, the formatter of
    [scraper-py/app.py] returns what the one of [main.py] returns, and so
    the five-digit formatter is extensionally equal to neither. *)
Theorem fmt_synergy_widths_differ :
  (∀ prefix seq, 0 ≤ seq < 10000 →
     fmt_synergy prefix seq ≠ Legacy.fmt_synergy prefix seq
     ∧ fmt_synergy prefix seq ≠ Scraper.fmt_synergy prefix seq)
  ∧ (∀ prefix seq, Scraper.fmt_synergy prefix seq = Legacy.fmt_synergy prefix seq)
  ∧ ¬ (∀ prefix seq, fmt_synergy prefix seq = Legacy.fmt_synergy prefix seq)
  ∧ ¬ (∀ prefix seq, fmt_synergy prefix seq = Scraper.fmt_synergy prefix seq).
Proof.
  assert (Hd : ∀ prefix seq, 0 ≤ seq < 10000 →
            fmt_synergy prefix seq ≠ Legacy.fmt_synergy prefix seq).
  { intros prefix seq Hr Heq. unfold fmt_synergy, Legacy.fmt_synergy in Heq.
    apply append_cancel_l, append_cancel_l in Heq.
    revert Heq. apply zfill_5_4_differ. lia. }
  split; [|split; [reflexivity|split]].
  - intros prefix seq Hr. split; apply Hd; exact Hr.
  - intros H. apply (Hd "LAP" 8); [lia|apply H].
  - intros H. apply (Hd "LAP" 8); [lia|apply H].
Qed.

Lemma fmt_synergy_widths_differ_witness :
  0 ≤ 8 < 10000 ∧ fmt_synergy "LAP" 8 ≠ Legacy.fmt_synergy "LAP" 8.
Proof.
  split; [lia|].
  exact (proj1 (proj1 fmt_synergy_widths_differ "LAP" 8 ltac:(lia))).
Defined.

(** ** The cursor monad *)

Section Cursor.

Context {A B : Type}.

Lemma bind_inr (m : M A) (f : A → M B) (s : db) (r : B * db) :
  (m ≫= f) s = inr r ↔ ∃ a s1, m s = inr (a, s1) ∧ f a s1 = inr r.
Proof.
  unfold mbind, M_bind. destruct (m s) as [e|[a s1]]; split.
  - discriminate.
  - intros (? & ? & ? & _). discriminate.
  - eauto.
  - intros (? & ? & [= <- <-] & H). exact H.
Qed.

Lemma bind_inl (m : M A) (f : A → M B) (s : db) (e : exn) :
  (m ≫= f) s = inl e ↔
  m s = inl e ∨ ∃ a s1, m s = inr (a, s1) ∧ f a s1 = inl e.
Proof.
  unfold mbind, M_bind. destruct (m s) as [e'|[a s1]]; split.
  - intros [= ->]. by left.
  - intros [[= ->]|(? & ? & ? & _)]; [reflexivity|discriminate].
  - right. eauto.
  - intros [?|(? & ? & [= <- <-] & H)]; [discriminate|exact H].
Qed.

Lemma bind_step (m : M A) (f : A → M B) (s s1 : db) (a : A) :
  m s = inr (a, s1) → (m ≫= f) s = f a s1.
Proof. unfold mbind, M_bind. by intros ->. Qed.

Lemma bind_raise (m : M A) (f : A → M B) (s : db) (e : exn) :
  m s = inl e → (m ≫= f) s = inl e.
Proof. unfold mbind, M_bind. by intros ->. Qed.

End Cursor.

Lemma touch_inr (t : table) (a : access) (s : db) (r : unit * db) :
  touch t a s = inr r ↔ ((t, a) ∉ outage s) ∧ r = (tt, s).
Proof.
  unfold touch. case_bool_decide; split.
  - discriminate.
  - intros [? _]. done.
  - intros [= <-]. done.
  - intros [_ ->]. done.
Qed.

Lemma touch_ok (t : table) (a : access) (s : db) :
  (t, a) ∉ outage s → touch t a s = inr (tt, s).
Proof. intros H. by apply touch_inr. Qed.

Lemma touch_down (t : table) (a : access) (s : db) :
  (t, a) ∈ outage s → touch t a s = inl (DatabaseError t).
Proof. intros H. unfold touch. by rewrite bool_decide_eq_true_2. Qed.

(** Takes a hypothesis [c s = inr r] apart, one statement at a time. *)
Ltac step_as H H1 :=
  let a := fresh "a" in
  let s1 := fresh "s" in
  apply bind_inr in H as (a & s1 & H1 & H);
  first [ apply touch_inr in H1 as [? [= -> ->]]
        | unfold get_db in H1; injection H1 as <- <-
        | unfold modify_db in H1; injection H1 as <- <-
        | idtac ];
  cbv beta in H.

Ltac step_in H := let H1 := fresh "Hstep" in step_as H H1.

Ltac returned H :=
  unfold mret, M_ret, get_db, modify_db, raise in H; simplify_eq H; intros; subst.

(** ** The recovery scan *)

Section Scan.

Lemma select_next_seq_inr (p : string) (s : db) (r : option (option Z) * db) :
  select_next_seq p s = inr r ↔
  ((id_prefix_counters_t, Read) ∉ outage s) ∧ r = (id_prefix_counters s !! p, s).
Proof.
  unfold select_next_seq. split.
  - intros H. step_in H. step_in H. returned H. done.
  - intros [Hok ->]. rewrite (bind_step _ _ _ _ _ (touch_ok _ _ _ Hok)). reflexivity.
Qed.

Lemma max_seq_of_bound (codes : list string) (m : option Z) :
  max_seq_of codes = inr m →
  ∀ code v, code ∈ codes → seq_of_code code = inr (Some v) →
    ∃ x, m = Some x ∧ v ≤ x.
Proof.
  revert m. induction codes as [|c rest IH]; intros m Hm code v Hin Hv.
  - by apply elem_of_nil in Hin.
  - cbn [max_seq_of] in Hm.
    destruct (seq_of_code c) as [e|vc] eqn:Hc; [discriminate|].
    destruct (max_seq_of rest) as [e|mr] eqn:Hr; [discriminate|].
    injection Hm as <-.
    apply elem_of_cons in Hin as [->|Hin].
    + rewrite Hv in Hc. injection Hc as <-.
      destruct mr as [y|]; cbn; eexists; split; try reflexivity; lia.
    + destruct (IH _ eq_refl code v Hin Hv) as (x & -> & Hx).
      destruct vc as [w|]; cbn; eexists; split; try reflexivity; lia.
Qed.

Lemma max_seq_of_attained (codes : list string) (x : Z) :
  max_seq_of codes = inr (Some x) →
  ∃ code, code ∈ codes ∧ seq_of_code code = inr (Some x).
Proof.
  revert x. induction codes as [|c rest IH]; intros x Hm; [discriminate|].
  cbn [max_seq_of] in Hm.
  destruct (seq_of_code c) as [e|vc] eqn:Hc; [discriminate|].
  destruct (max_seq_of rest) as [e|mr] eqn:Hr; [discriminate|].
  injection Hm as Hm.
  assert (Hcase : vc = Some x ∨ mr = Some x).
  { destruct vc as [w|], mr as [y|]; cbn in Hm; try injection Hm as Hm;
      try discriminate; [|left; congruence|right; congruence].
    destruct (Z.max_spec w y) as [[_ E]|[_ E]]; rewrite E in Hm;
      [right|left]; congruence. }
  destruct Hcase as [->| ->].
  - exists c. split; [apply elem_of_cons; by left|done].
  - destruct (IH x eq_refl) as (code & Hin & Hcode).
    exists code. split; [apply elem_of_cons; by right|done].
Qed.

Lemma select_max_seq_inr (t : table) (p : string) (s : db) (r : Z * db) :
  select_max_seq t p s = inr r ↔
  ((t, Read) ∉ outage s) ∧
  ∃ m, max_seq_of (matching_codes p (synergy_id_column t s)) = inr m
       ∧ r = (default 0 m, s).
Proof.
  unfold select_max_seq. split.
  - intros H. step_in H. step_in H.
    destruct (max_seq_of _) as [e|m] eqn:Hm; [discriminate|].
    returned H. eauto.
  - intros (Hok & m & Hm & ->).
    rewrite (bind_step _ _ _ _ _ (touch_ok _ _ _ Hok)).
    unfold get_db. unfold mbind, M_bind. by rewrite Hm.
Qed.

Lemma scan_tables_reads (ts : list table) (p : string) (acc : Z) (s s1 : db) (m : Z) :
  scan_tables ts p acc s = inr (m, s1) → s1 = s.
Proof.
  revert acc. induction ts as [|t rest IH]; intros acc H; cbn [scan_tables] in H.
  - by returned H.
  - step_as H H0. apply select_max_seq_inr in H0 as (_ & ? & _ & [= _ ->]). eauto.
Qed.

(** The scan starts from [acc] and ends on the greatest of [acc] and the
    sequence values of the matching codes of its tables. *)
Lemma scan_tables_bound (ts : list table) (p : string) (acc : Z) (s s1 : db) (m : Z) :
  scan_tables ts p acc s = inr (m, s1) →
  acc ≤ m ∧
  ∀ t code v, t ∈ ts → code ∈ matching_codes p (synergy_id_column t s) →
    seq_of_code code = inr (Some v) → v ≤ m.
Proof.
  revert acc. induction ts as [|t rest IH]; intros acc H; cbn [scan_tables] in H.
  - returned H. split; [lia|]. intros t code v Hin. by apply elem_of_nil in Hin.
  - step_as H H0. apply select_max_seq_inr in H0 as (_ & mx & Hmx & [= -> ->]).
    destruct (IH _ H) as [Hge Hall]. split; [lia|].
    intros t' code v Hin Hcode Hv.
    apply elem_of_cons in Hin as [->|Hin]; [|eauto].
    destruct (max_seq_of_bound _ _ Hmx code v Hcode Hv) as (x & -> & Hx).
    cbn in Hge. lia.
Qed.

Lemma scan_tables_attained (ts : list table) (p : string) (acc : Z) (s s1 : db) (m : Z) :
  0 ≤ acc →
  scan_tables ts p acc s = inr (m, s1) →
  m = acc ∨
  ∃ t code, t ∈ ts ∧ code ∈ matching_codes p (synergy_id_column t s)
            ∧ seq_of_code code = inr (Some m).
Proof.
  revert acc. induction ts as [|t rest IH]; intros acc Hacc H; cbn [scan_tables] in H.
  - returned H. by left.
  - step_as H H0. apply select_max_seq_inr in H0 as (_ & mx & Hmx & [= -> ->]).
    assert (Hacc' : 0 ≤ Z.max acc (default 0 mx)) by lia.
    destruct (IH _ Hacc' H) as [->|(t' & code & Hin & Hcode & Hv)].
    + destruct (Z.max_spec acc (default 0 mx)) as [[Hlt E]|[_ E]]; rewrite E; [|by left].
      destruct mx as [x|]; cbn in *; [|lia].
      destruct (max_seq_of_attained _ _ Hmx) as (code & Hin & Hv).
      right. exists t, code. split; [apply elem_of_cons; by left|done].
    + right. exists t', code. split; [apply elem_of_cons; by right|done].
Qed.

(** [_get_true_max_seq]: it changes nothing, its result is at least 0,
    at least every sequence value present for the prefix, and is 0 or
    one of those values. *)
Lemma true_max_seq_spec (p : string) (s s1 : db) (m : Z) :
  _get_true_max_seq p s = inr (m, s1) →
  s1 = s ∧ 0 ≤ m ∧ (∀ v, seq_present p s v → v ≤ m) ∧ (m = 0 ∨ seq_present p s m).
Proof.
  unfold _get_true_max_seq. intros H.
  pose proof (scan_tables_reads _ _ _ _ _ _ H) as ->.
  destruct (scan_tables_bound _ _ _ _ _ _ H) as [H0 Hall].
  repeat split; [done| |].
  - intros v (t & code & Ht & Hc & Hv). eauto.
  - destruct (scan_tables_attained _ _ _ _ _ _ (Z.le_refl 0) H) as [->|(t & code & ? & ? & ?)];
      [by left|right]. exists t, code. done.
Qed.

End Scan.



(** The scan takes the second field between dashes, not the last one: a
    code of a prefix that has a dash in it makes the cast raise. *)
Example scan_of_dashed_prefix_raises :
  _get_true_max_seq "A-B"
    (set_inventory_items (λ _, [item_with_code "A-B-00001"]) empty_db)
  = inl (DataError "B").
Proof. vm_compute. reflexivity. Qed.

(** A prefix is a [LIKE] pattern: an underscore in it matches any
    character of a code. *)
Example scan_reads_prefix_as_pattern :
  _get_true_max_seq "L_P" lap_scattered = inr (7, lap_scattered).
Proof. vm_compute. reflexivity. Qed.

(** ** The allocator *)

Section Allocator.

Lemma reserve_seq_inr (p : string) (s s1 : db) (n : Z) :
  reserve_seq p s = inr (n, s1) →
  s1 = s ∧ ((id_prefix_counters_t, Read) ∉ outage s) ∧
  (id_prefix_counters s !! p = Some (Some n)
   ∨ (id_prefix_counters s !! p = None ∨ id_prefix_counters s !! p = Some None)
     ∧ ∃ m, _get_true_max_seq p s = inr (m, s) ∧ n = m + 1).
Proof.
  unfold reserve_seq. intros H. step_as H H0.
  apply select_next_seq_inr in H0 as [Hok [= -> ->]].
  destruct (id_prefix_counters s !! p) as [[c|]|] eqn:Hrow.
  - returned H. auto.
  - step_as H H0. pose proof (scan_tables_reads _ _ _ _ _ _ H0) as ->.
    returned H. split; [done|split; [done|right]]. split; [by right|]. eauto.
  - step_as H H0. pose proof (scan_tables_reads _ _ _ _ _ _ H0) as ->.
    returned H. split; [done|split; [done|right]]. split; [by left|]. eauto.
Qed.

(** With a counter row the reserved value is the row's [next_seq]. *)
Lemma reserve_seq_of_row (p : string) (s : db) (c : Z) :
  (id_prefix_counters_t, Read) ∉ outage s →
  id_prefix_counters s !! p = Some (Some c) →
  reserve_seq p s = inr (c, s).
Proof.
  intros Hok Hrow. unfold reserve_seq.
  assert (Hsel : select_next_seq p s = inr (id_prefix_counters s !! p, s))
    by (by apply select_next_seq_inr).
  rewrite (bind_step _ _ _ _ _ Hsel), Hrow. reflexivity.
Qed.

(** Without one (or with a [NULL] in it) it is one more than what the
    scan of the two tables finds. *)
Lemma reserve_seq_of_scan (p : string) (s : db) (m : Z) :
  (id_prefix_counters_t, Read) ∉ outage s →
  id_prefix_counters s !! p = None ∨ id_prefix_counters s !! p = Some None →
  _get_true_max_seq p s = inr (m, s) →
  reserve_seq p s = inr (m + 1, s).
Proof.
  intros Hok Hrow Hscan. unfold reserve_seq.
  assert (Hsel : select_next_seq p s = inr (id_prefix_counters s !! p, s))
    by (by apply select_next_seq_inr).
  rewrite (bind_step _ _ _ _ _ Hsel).
  unfold _get_true_max_seq in Hscan.
  destruct Hrow as [-> | ->]; by rewrite (bind_step _ _ _ _ _ Hscan).
Qed.

Lemma upsert_next_seq_inr (p : string) (v : Z) (s : db) (r : unit * db) :
  upsert_next_seq p v s = inr r ↔
  ((id_prefix_counters_t, Write) ∉ outage s) ∧
  r = (tt, set_counters (λ m, <[p := Some v]> m) s).
Proof.
  unfold upsert_next_seq. split.
  - intros H. step_in H. returned H. done.
  - intros [Hok ->]. by rewrite (bind_step _ _ _ _ _ (touch_ok _ _ _ Hok)).
Qed.

Lemma log_synergy_event_inr et p n code actor po line item meta (s : db) (r : unit * db) :
  log_synergy_event et p n code actor po line item meta s = inr r →
  ((synergy_id_events_t, Write) ∉ outage s) ∧
  ∃ ev, r = (tt, set_events (λ evs, (evs ++ [ev])%list) s).
Proof. unfold log_synergy_event. intros H. step_in H. returned H. eauto. Qed.


(** What a returning allocation has done. *)
Lemma get_next_synergy_code_inr (p : string) actor po line item (s s1 : db) (code : string) :
  _get_next_synergy_code p actor po line item s = inr (code, s1) →
  ∃ n, reserve_seq p s = inr (n, s) ∧ code = fmt_synergy p n ∧
       ((id_prefix_counters_t, Write) ∉ outage s) ∧
       id_prefix_counters s1 = <[p := Some (n + 1)]> (id_prefix_counters s) ∧
       po_lines s1 = po_lines s ∧ inventory_items s1 = inventory_items s ∧
       categories s1 = categories s ∧ outage s1 = outage s.
Proof.
  unfold _get_next_synergy_code. intros H. step_as H H0.
  pose proof (reserve_seq_inr _ _ _ _ H0) as (-> & _ & _).
  step_as H H1. apply upsert_next_seq_inr in H1 as [Hw [= _ ->]].
  step_as H H2. returned H. exists a. split; [done|split; [done|split; [done|]]].
  unfold try_except in H2.
  destruct (log_synergy_event _ _ _ _ _ _ _ _ _ _) as [e|r] eqn:Hlog.
  - returned H2. done.
  - injection H2 as ->. apply log_synergy_event_inr in Hlog as (_ & ev & Hev).
    simplify_eq. done.
Qed.




Lemma prefix_take_inr (p : string) (s s1 : db) (code : string) :
  prefix_take p s = (inr code, s1) → next_code p s = inr (code, s1).
Proof.
  unfold prefix_take, with_db. destruct (next_code p s) as [e'|[c s2]]; congruence.
Qed.

End Allocator.

(** ** A series of allocations *)

Section Series.

Variable P : string.





End Series.





(** ** Recovery seeding *)

(** [_get_next_synergy_code] without a counter row (or with a [NULL] in
    it): the scan of the two tables gives [M], at least 0, at least every
    sequence value present for the prefix and 0 or one of them, and the
    allocation hands out [M + 1]. *)
Lemma recovery_seed (P : string) (s s1 : db) (code : string) :
  id_prefix_counters s !! P = None ∨ id_prefix_counters s !! P = Some None →
  next_code P s = inr (code, s1) →
  ∃ M, _get_true_max_seq P s = inr (M, s) ∧ 0 ≤ M ∧
       (∀ v, seq_present P s v → v ≤ M) ∧ (M = 0 ∨ seq_present P s M) ∧
       code = fmt_synergy P (M + 1) ∧
       id_prefix_counters s1 !! P = Some (Some (M + 2)).
Proof.
  intros Hrow H. apply get_next_synergy_code_inr in H as (n & Hres & -> & _ & Hcnt & _).
  apply reserve_seq_inr in Hres as (_ & _ & [Hn|[_ (M & HM & ->)]]).
  - destruct Hrow as [Hrow|Hrow]; rewrite Hrow in Hn; discriminate.
  - exists M. pose proof (true_max_seq_spec _ _ _ _ HM) as (_ & ? & ? & ?).
    repeat split; try done.
    rewrite Hcnt, lookup_insert_eq. do 2 f_equal. lia.
Qed.



(** ** The counter and the data *)

Section CounterInvariant.

Lemma with_db_inr {A} (body : M A) (s s1 : db) (a : A) :
  with_db body s = (inr a, s1) ↔ body s = inr (a, s1).
Proof.
  unfold with_db. destruct (body s) as [e|[a' s']]; split; intros H;
    try discriminate; congruence.
Qed.

Lemma with_db_inl {A} (body : M A) (s s1 : db) (e : exn) :
  with_db body s = (inl e, s1) ↔ body s = inl e ∧ s1 = s.
Proof.
  unfold with_db. destruct (body s) as [e'|[a' s']]; split;
    try (intros [H ->]); try (intros H); try discriminate; try congruence.
  split; congruence.
Qed.




(** The minimum [prefix_set] computes is the greater of one more than
    the scan's result and the row's [next_seq]. *)
Lemma safe_min_next_eq (row : option (option Z)) (tm : Z) :
  0 ≤ tm →
  Z.max (tm + 1) (Py.or_int (Some (Py.or_int (row ≫= id) 0)) 1)
  = Z.max (tm + 1) (default 0 (row ≫= id)).
Proof.
  intros Htm. destruct row as [[c|]|]; cbn; try lia.
  destruct c; cbn; lia.
Qed.


End CounterInvariant.

(** An allocation trusts the counter row it finds: on a row that lags
    behind the data it hands out the row's value and leaves the counter
    one higher, still not above the data. *)
Example allocation_trusts_counter_row :
  prefix_take "LAP" lap_stale
  = (inr "LAP-00003",
     set_events (λ evs, (evs ++ [ {| ev_actor_name := None; ev_po_id := None;
                                     ev_po_line_id := None; ev_inventory_id := None;
                                     ev_prefix := "LAP"; ev_code := "LAP-00003";
                                     ev_seq := 3; ev_event_type := "mint";
                                     ev_meta := MetaSource "_get_next_synergy_code" |} ])%list)
       (set_counters (λ m, <["LAP" := Some 4]> m) lap_stale))
  ∧ seq_present "LAP" lap_stale 7.
Proof.
  split; [vm_compute; reflexivity|].
  exists inventory_items_t, "LAP-00007". split; [|split].
  - apply elem_of_cons. by left.
  - apply list_elem_of_In. vm_compute. auto.
  - vm_compute. reflexivity.
Qed.

(** C2 (at the failing input): in tables where [next_seq("LAP") = 11] is
    above every sequence value present for [LAP] (the highest is 10), the
    manual set of [main.py] accepts [next = 5] and leaves a counter that
    is not above the data; the manual set of [routes_synergy.py] refuses
    the same request and leaves the tables alone. *)
Theorem legacy_prefix_set_breaks_counter_invariant :
  counter_above_data "LAP" lap_ten
  ∧ Legacy.prefix_set "LAP" (NextInt 5) lap_ten
    = (inr 5, set_counters (λ m, <["LAP" := Some 5]> m) lap_ten)
  ∧ ¬ counter_above_data "LAP" (set_counters (λ m, <["LAP" := Some 5]> m) lap_ten)
  ∧ prefix_set "LAP" (no_body (NextInt 5)) lap_ten
    = (inl (HTTPException 400
              (DetailSafeNext (unsafe_next_message "LAP" 5 11) 11)), lap_ten).
Proof.
  assert (Hscan : _get_true_max_seq "LAP" lap_ten = inr (10, lap_ten))
    by (vm_compute; reflexivity).
  split; [|split; [|split]].
  - intros next v Hrow Hv.
    apply true_max_seq_spec in Hscan as (_ & _ & Hle & _). specialize (Hle _ Hv).
    assert (next = 11) as -> by (vm_compute in Hrow; congruence). lia.
  - vm_compute. reflexivity.
  - intros Hinv. specialize (Hinv 5 10 (lookup_insert_eq _ _ _)).
    assert (10 < 5); [|lia]. apply Hinv.
    exists inventory_items_t, "LAP-00010". split; [|split].
    + apply elem_of_cons. by left.
    + apply list_elem_of_In. vm_compute. auto.
    + vm_compute. reflexivity.
  - vm_compute. reflexivity.
Qed.

(** ** The guard of the manual set *)

(** C4 as stated fails: with [true_max_seq("LAP") = 10] and
    [next_seq = 11], [next = 0] is below the safe minimum 11 and is
    refused, but the payload of the refusal is the plain message of the
    first check and carries no safe minimum. *)
Lemma prefix_set_below_one_hides_safe_minimum :
  _get_true_max_seq "LAP" lap_ten = inr (10, lap_ten)
  ∧ current_next_seq "LAP" lap_ten = 11
  ∧ 0 < Z.max (10 + 1) 11
  ∧ prefix_set "LAP" (no_body (NextInt 0)) lap_ten
    = (inl (HTTPException 400 (DetailText "next must be >= 1")), lap_ten)
  ∧ ¬ ∃ message,
        prefix_set "LAP" (no_body (NextInt 0)) lap_ten
        = (inl (HTTPException 400 (DetailSafeNext message 11)), lap_ten).
Proof.
  split; [vm_compute; reflexivity|]. split; [vm_compute; reflexivity|].
  split; [lia|]. split; [reflexivity|].
  intros [message H]. discriminate H.
Qed.

(** C4, amended: when the scan of the data gives [true_max_seq], a
    requested [next] below [max(true_max_seq + 1, current next_seq)] is
    always refused with status 400 and the tables stay as they were; from
    1 upwards the payload carries that safe minimum, below 1 it is the
    message of the first check. *)
Theorem prefix_set_rejects_below_safe_minimum
    (P : string) (body : set_body) (s : db) (nxt true_max_seq : Z) :
  int_of_next (sb_next body) = Some nxt →
  (id_prefix_counters_t, Read) ∉ outage s →
  _get_true_max_seq P s = inr (true_max_seq, s) →
  nxt < Z.max (true_max_seq + 1) (current_next_seq P s) →
  prefix_set P body s
  = (inl (HTTPException 400
            (if nxt <? 1 then DetailText "next must be >= 1"
             else
               let safe_min_next := Z.max (true_max_seq + 1) (current_next_seq P s) in
               DetailSafeNext (unsafe_next_message P nxt safe_min_next) safe_min_next)),
     s).
Proof.
  intros Hnext Hr Hscan Hlt. unfold prefix_set. rewrite Hnext.
  destruct (nxt <? 1); [reflexivity|].
  unfold with_db, prefix_set_body.
  assert (Hsel : select_next_seq P s = inr (id_prefix_counters s !! P, s))
    by (by apply select_next_seq_inr).
  rewrite (bind_step _ _ _ _ _ Hsel), (bind_step _ _ _ _ _ Hscan).
  pose proof (true_max_seq_spec _ _ _ _ Hscan) as (_ & Htm & _).
  rewrite safe_min_next_eq by exact Htm. fold (current_next_seq P s).
  apply Z.ltb_lt in Hlt. rewrite Hlt. reflexivity.
Qed.

Lemma prefix_set_rejects_below_safe_minimum_witness :
  prefix_set "LAP" (no_body (NextInt 5)) lap_ten
  = (inl (HTTPException 400
            (DetailSafeNext (unsafe_next_message "LAP" 5 (Z.max (10 + 1) 11))
               (Z.max (10 + 1) 11))),
     lap_ten).
Proof.
  apply (prefix_set_rejects_below_safe_minimum "LAP" (no_body (NextInt 5)) lap_ten 5 10).
  - reflexivity.
  - intros H. by apply elem_of_nil in H.
  - vm_compute. reflexivity.
  - vm_compute. reflexivity.
Defined.

(** ** Peek *)

(** C9: for every prefix and every state of the tables, [prefix_peek] of
    [routes_synergy.py] raises [NameError] on
    [_get_starting_seq_for_prefix], a name no module-level statement of
    the file binds, and never returns a code. *)
Theorem prefix_peek_raises_name_error (prefix : string) (s : db) :
  lookup_global "_get_starting_seq_for_prefix" module_globals = None
  ∧ prefix_peek prefix s = (inl (NameError "_get_starting_seq_for_prefix"), s)
  ∧ ∀ code s1, prefix_peek prefix s ≠ (inr code, s1).
Proof.
  assert (H : prefix_peek prefix s = (inl (NameError "_get_starting_seq_for_prefix"), s))
    by reflexivity.
  split; [reflexivity|]. split; [exact H|].
  intros code s1. rewrite H. discriminate.
Qed.

(** ** Explosion *)

Section Explosion.

Variable po_id : uuid.

Lemma have_of_app (k : option uuid) (l1 l2 : list inventory_item) :
  have_of po_id k (l1 ++ l2)%list = have_of po_id k l1 + have_of po_id k l2.
Proof. unfold have_of. rewrite List.filter_app, length_app. lia. Qed.

Lemma have_of_nonneg (k : option uuid) (l : list inventory_item) : 0 ≤ have_of po_id k l.
Proof. unfold have_of. lia. Qed.

Lemma have_of_added (line : uuid) (added : list inventory_item) :
  Forall (item_of_line po_id line) added →
  have_of po_id (Some line) added = Z.of_nat (length added).
Proof.
  unfold have_of. induction 1 as [|it rest [Hpo Hline] _ IH]; [done|].
  cbn [List.filter]. unfold of_po at 1.
  rewrite !bool_decide_eq_true_2 by done. cbn [andb length].
  apply Nat2Z.inj in IH. by rewrite IH.
Qed.

(** The dictionary of counts holds, for every line, the number of the
    order's items on it. *)
Lemma existing_counts_of_have (s : db) (k : option uuid) :
  default 0 (existing_counts_of po_id s !! k) = have_of po_id k (inventory_items s).
Proof.
  unfold existing_counts_of, have_of.
  induction (inventory_items s) as [|it rest IH]; [done|].
  cbn [List.filter]. destruct (of_po po_id it); cbn [andb]; [|exact IH].
  cbn [foldr]. unfold count_step at 1.
  destruct (decide (ii_po_line_id it = k)) as [->|Hne].
  - rewrite lookup_insert_eq, bool_decide_eq_true_2 by done.
    cbn [default from_option length]. rewrite IH. unfold id. lia.
  - rewrite lookup_insert_ne, bool_decide_eq_false_2 by done. exact IH.
Qed.

Lemma insert_inventory_item_inr (it : inventory_item) (s : db) (r : unit * db) :
  insert_inventory_item it s = inr r →
  r = (tt, set_inventory_items (λ its, (its ++ [it])%list) s).
Proof.
  unfold insert_inventory_item. intros H. step_in H. step_in H.
  destruct (ii_synergy_code it) as [code|]; [case_bool_decide|]; by returned H.
Qed.

Lemma grown_by_trans (a1 a2 : list inventory_item) (s s1 s2 : db) :
  grown_by a1 s s1 → grown_by a2 s1 s2 → grown_by (a1 ++ a2) s s2.
Proof.
  intros (Hl1 & Hc1 & Ho1 & Hi1) (Hl2 & Hc2 & Ho2 & Hi2).
  repeat split; try congruence. rewrite Hi2, Hi1. by rewrite <- app_assoc.
Qed.

Lemma explode_units_inr (ln : explode_row) (n : nat) (acc acc1 : explode_acc) (s s1 : db) :
  explode_units po_id ln n acc s = inr (acc1, s1) →
  created acc1 = created acc + Z.of_nat n ∧ skipped acc1 = skipped acc ∧
  ∃ added, grown_by added s s1 ∧ length added = n
           ∧ Forall (item_of_line po_id (xr_id ln)) added.
Proof.
  revert acc s. induction n as [|n IH]; intros acc s H; cbn [explode_units] in H.
  - returned H. split; [lia|split; [done|]]. exists []. repeat split; try done.
    by rewrite app_nil_r.
  - step_as H Hcode. destruct a as [code codes].
    assert (Hs0 : grown_by [] s s0).
    { destruct (_ && _) in Hcode.
      - returned Hcode. repeat split; try done. by rewrite app_nil_r.
      - step_as Hcode Hnext. returned Hcode.
        apply get_next_synergy_code_inr in Hnext as (_ & _ & _ & _ & _ & ? & ? & ? & ?).
        repeat split; try done. by rewrite app_nil_r. }
    step_as H Hins. apply insert_inventory_item_inr in Hins as [= _ ->].
    apply IH in H as (Hc & Hsk & added & Hg & Hlen & Hall).
    cbn [created skipped] in Hc, Hsk. split; [lia|split; [done|]].
    eexists (_ :: added). split; [|split].
    + apply (grown_by_trans [] _ _ _ _ Hs0).
      destruct Hg as (? & ? & ? & Hi). repeat split; try done.
      rewrite Hi. cbn [set_inventory_items inventory_items].
      rewrite <- app_assoc. reflexivity.
    + cbn [length]. by rewrite Hlen.
    + constructor; [|exact Hall]. split; reflexivity.
Qed.

Lemma explode_row_step_inr (counts : gmap (option uuid) Z) (ln : explode_row)
    (acc acc1 : explode_acc) (s s1 : db) :
  explode_row_step po_id counts ln acc s = inr (acc1, s1) →
  ∃ added, grown_by added s s1 ∧ Forall (item_of_line po_id (xr_id ln)) added ∧
    (uncategorised ln = false → Z.of_nat (length added) = row_need counts ln).
Proof.
  unfold explode_row_step. intros H. destruct (uncategorised ln).
  - returned H. exists []. repeat split; try done. by rewrite app_nil_r.
  - destruct (Z.leb_spec (row_need counts ln) 0) as [Hle|Hgt].
    + returned H. exists []. repeat split; try done; [by rewrite app_nil_r|].
      intros _. unfold row_need in *. cbn [length]. lia.
    + apply explode_units_inr in H as (_ & _ & added & Hg & Hlen & Hall).
      exists added. split; [done|split; [done|]]. intros _. rewrite Hlen. lia.
Qed.

(** After the loop every row with a category has at least its quantity
    of items, provided the counts the loop works with were not above the
    items there were. *)
Lemma explode_rows_inr (counts : gmap (option uuid) Z) (rows : list explode_row)
    (acc acc1 : explode_acc) (s s1 : db) :
  explode_rows po_id counts rows acc s = inr (acc1, s1) →
  (∀ k, default 0 (counts !! k) ≤ have_of po_id k (inventory_items s)) →
  (∃ added, grown_by added s s1) ∧
  ∀ ln, ln ∈ rows → uncategorised ln = false →
    row_qty ln ≤ have_of po_id (Some (xr_id ln)) (inventory_items s1).
Proof.
  revert acc s. induction rows as [|ln rest IH]; intros acc s H Hcounts;
    cbn [explode_rows] in H.
  - returned H. split.
    + exists []. repeat split; try done. by rewrite app_nil_r.
    + intros ln Hin. by apply elem_of_nil in Hin.
  - step_as H Hstep.
    apply explode_row_step_inr in Hstep as (added & Hg & Hall & Hneed).
    pose proof Hg as (_ & _ & _ & Hitems).
    assert (Hcounts0 : ∀ k, default 0 (counts !! k) ≤ have_of po_id k (inventory_items s0)).
    { intros k. rewrite Hitems, have_of_app.
      pose proof (have_of_nonneg k added). specialize (Hcounts k). lia. }
    destruct (IH _ _ H Hcounts0) as [[added' Hg'] Hrest]. split.
    + exists (added ++ added')%list. by eapply grown_by_trans.
    + intros ln' Hin Hcat. apply elem_of_cons in Hin as [->|Hin]; [|by apply Hrest].
      destruct Hg' as (_ & _ & _ & Hitems').
      rewrite Hitems', Hitems, !have_of_app, (have_of_added _ _ Hall), (Hneed Hcat).
      pose proof (have_of_nonneg (Some (xr_id ln)) added').
      specialize (Hcounts (Some (xr_id ln))). unfold row_need. lia.
Qed.


Lemma explode_body_inr (s s1 : db) (r : explode_result) :
  explode_body po_id s = inr (r, s1) →
  ((inventory_items_t, Read) ∉ outage s) ∧ ((po_lines_t, Read) ∉ outage s)
  ∧ ((categories_t, Read) ∉ outage s) ∧
  ∃ acc1,
    explode_rows po_id (existing_counts_of po_id s) (explode_rows_of po_id s)
      {| created := 0; skipped := 0; existing_codes := existing_codes_of po_id s |} s
    = inr (acc1, s1)
    ∧ r = {| xres_created := created acc1; xres_skipped := skipped acc1;
             xres_state := explode_state (created acc1) (skipped acc1) |}.
Proof.
  unfold explode_body. intros H.
  step_as H H1. step_as H H2. step_as H H3. step_as H H4. step_as H H5.
  returned H. repeat split; try done. eauto.
Qed.




Lemma on_result_bind {A B C} (g : B → C) (m : M A) (f : A → M B) (s : db) :
  on_result g ((m ≫= f) s) = (m ≫= (λ a s1, on_result g (f a s1))) s.
Proof. unfold mbind, M_bind. by destruct (m s) as [e|[a s1]]. Qed.

Lemma bind_ext {A B} (m : M A) (f g : A → M B) (s : db) :
  (∀ a s1, f a s1 = g a s1) → (m ≫= f) s = (m ≫= g) s.
Proof. intros H. unfold mbind, M_bind. destruct (m s) as [e|[a s1]]; [done|apply H]. Qed.

(** The loops never read [skipped]: a quantity added to it beforehand
    comes out added to it afterwards. *)
Lemma explode_units_add_skipped (ln : explode_row) (n : nat) (d : Z)
    (acc : explode_acc) (s : db) :
  explode_units po_id ln n (add_skipped d acc) s
  = on_result (add_skipped d) (explode_units po_id ln n acc s).
Proof.
  revert acc s. induction n as [|n IH]; intros acc s; [reflexivity|].
  cbn [explode_units add_skipped existing_codes created skipped].
  rewrite on_result_bind. apply bind_ext. intros [code codes] s1.
  rewrite on_result_bind. apply bind_ext. intros [] s2.
  exact (IH {| created := created acc + 1; skipped := skipped acc;
               existing_codes := codes |} s2).
Qed.

Lemma skip_row_add_skipped (ln : explode_row) (d : Z) (acc : explode_acc) :
  skip_row ln (add_skipped d acc) = add_skipped d (skip_row ln acc).
Proof. unfold skip_row, add_skipped. cbn. f_equal. lia. Qed.

Lemma explode_row_step_add_skipped (counts : gmap (option uuid) Z) (ln : explode_row)
    (d : Z) (acc : explode_acc) (s : db) :
  explode_row_step po_id counts ln (add_skipped d acc) s
  = on_result (add_skipped d) (explode_row_step po_id counts ln acc s).
Proof.
  unfold explode_row_step. destruct (uncategorised ln).
  - unfold mret, M_ret. cbn [on_result]. by rewrite skip_row_add_skipped.
  - destruct (row_need counts ln <=? 0).
    + unfold mret, M_ret. cbn [on_result]. by rewrite skip_row_add_skipped.
    + apply explode_units_add_skipped.
Qed.

Lemma explode_rows_add_skipped (counts : gmap (option uuid) Z) (rows : list explode_row)
    (d : Z) (acc : explode_acc) (s : db) :
  explode_rows po_id counts rows (add_skipped d acc) s
  = on_result (add_skipped d) (explode_rows po_id counts rows acc s).
Proof.
  revert acc s. induction rows as [|ln rest IH]; intros acc s; [reflexivity|].
  cbn [explode_rows]. unfold mbind, M_bind.
  rewrite explode_row_step_add_skipped.
  destruct (explode_row_step po_id counts ln acc s) as [e|[acc1 s1]]; [reflexivity|].
  cbn [on_result]. apply IH.
Qed.

Lemma on_result_add_skipped (a b : Z) (r : exn + explode_acc * db) :
  on_result (add_skipped a) (on_result (add_skipped b) r) = on_result (add_skipped (a + b)) r.
Proof.
  destruct r as [e|[acc s]]; [reflexivity|]. cbn. unfold add_skipped. cbn.
  do 3 f_equal. lia.
Qed.

(** Rows without a category add their quantity to [skipped] and do
    nothing else: the loop over all rows is the loop over the rows that
    have one. *)
Lemma explode_rows_without_uncategorised (counts : gmap (option uuid) Z)
    (rows : list explode_row) (acc : explode_acc) (s : db) :
  explode_rows po_id counts rows acc s
  = on_result (add_skipped (uncategorised_qty rows))
      (explode_rows po_id counts (List.filter (λ ln, negb (uncategorised ln)) rows) acc s).
Proof.
  revert acc s. induction rows as [|ln rest IH]; intros acc s.
  - cbn. unfold mret, M_ret, add_skipped. destruct acc. cbn. do 3 f_equal. lia.
  - cbn [explode_rows List.filter uncategorised_qty foldr].
    fold (uncategorised_qty rest).
    destruct (uncategorised ln) eqn:Hcat; cbn [negb].
    + unfold explode_row_step. rewrite Hcat.
      unfold mbind, M_bind, mret, M_ret.
      change (skip_row ln acc) with (add_skipped (row_qty ln) acc).
      rewrite explode_rows_add_skipped, IH, on_result_add_skipped. reflexivity.
    + cbn [explode_rows]. unfold mbind, M_bind.
      destruct (explode_row_step po_id counts ln acc s) as [e|[acc1 s1]]; [reflexivity|].
      apply IH.
Qed.

Lemma explode_by_line_fills (s s1 : db) (r : explode_result) :
  explode_by_line po_id s = (inr r, s1) →
  ∀ ln, ln ∈ explode_rows_of po_id s → uncategorised ln = false →
    row_qty ln ≤ have_of po_id (Some (xr_id ln)) (inventory_items s1).
Proof.
  unfold explode_by_line. rewrite with_db_inr. intros H.
  apply explode_body_inr in H as (_ & _ & _ & acc1 & Hrows & _).
  apply explode_rows_inr in Hrows as [_ Hfull]; [exact Hfull|].
  intros k. rewrite existing_counts_of_have. lia.
Qed.

End Explosion.

(** ** What keeps a counter *)

Section CounterKept.

Variable P : string.

Lemma counter_kept_refl (s : db) : counter_kept P s s.
Proof. intros c Hc. exists c. split; [done|lia]. Qed.

Lemma counter_kept_trans (s s1 s2 : db) :
  counter_kept P s s1 → counter_kept P s1 s2 → counter_kept P s s2.
Proof.
  intros H1 H2 c Hc. destruct (H1 c Hc) as (c1 & Hc1 & Hle1).
  destruct (H2 c1 Hc1) as (c2 & Hc2 & Hle2). exists c2. split; [done|lia].
Qed.

Lemma counter_kept_same (s s1 : db) :
  id_prefix_counters s1 = id_prefix_counters s → counter_kept P s s1.
Proof. intros H c Hc. exists c. rewrite H. split; [done|lia]. Qed.

(** An allocation, for whatever prefix, keeps the counter of [P]. *)
Lemma allocation_keeps_counter (Q : string) actor po line item (s s1 : db) (code : string) :
  _get_next_synergy_code Q actor po line item s = inr (code, s1) →
  counter_kept P s s1.
Proof.
  intros H c Hc. apply get_next_synergy_code_inr in H as (n & Hres & _ & _ & Hcnt & _).
  rewrite Hcnt. destruct (decide (Q = P)) as [->|Hne].
  - apply reserve_seq_inr in Hres as (_ & _ & [Hn|[[Hn|Hn] _]]);
      rewrite Hc in Hn; try discriminate. injection Hn as <-.
    exists (c + 1). split; [apply lookup_insert_eq|lia].
  - exists c. rewrite lookup_insert_ne by done. split; [done|lia].
Qed.

(** An endpoint that fails leaves the tables as they were. *)
Lemma with_db_keeps_counter {A} (body : M A) (s : db) :
  (∀ a s1, body s = inr (a, s1) → counter_kept P s s1) →
  counter_kept P s (with_db body s).2.
Proof.
  intros H. unfold with_db. destruct (body s) as [e|[a s1]] eqn:Hb; cbn [snd].
  - apply counter_kept_refl.
  - by eapply H.
Qed.

Lemma prefix_take_keeps_counter (Q : string) (s : db) :
  counter_kept P s (prefix_take Q s).2.
Proof.
  unfold prefix_take. apply with_db_keeps_counter. intros code s1.
  apply allocation_keeps_counter.
Qed.

(** The manual set of [routes_synergy.py] never lowers a counter. *)
Lemma prefix_set_keeps_counter (Q : string) (body : set_body) (s : db) :
  counter_kept P s (prefix_set Q body s).2.
Proof.
  unfold prefix_set. destruct (int_of_next (sb_next body)) as [nxt|];
    [|apply counter_kept_refl].
  destruct (nxt <? 1); [apply counter_kept_refl|].
  apply with_db_keeps_counter. intros n s1 H. unfold prefix_set_body in H.
  step_as H Hsel. apply select_next_seq_inr in Hsel as [_ [= -> ->]].
  step_as H Hscan. pose proof (true_max_seq_spec _ _ _ _ Hscan) as (-> & _).
  destruct (nxt <? Z.max _ _) eqn:Hcmp; [discriminate|]. apply Z.ltb_ge in Hcmp.
  step_as H Hup. apply upsert_next_seq_inr in Hup as [_ [= _ ->]].
  step_as H Hlog. apply log_synergy_event_inr in Hlog as (_ & ev & Hev).
  returned H. simplify_eq. intros c Hc. cbn [id_prefix_counters set_events set_counters].
  destruct (decide (Q = P)) as [->|Hne].
  - exists n. split; [apply lookup_insert_eq|].
    rewrite Hc in Hcmp. cbn in Hcmp. destruct c; cbn in Hcmp; lia.
  - exists c. rewrite lookup_insert_ne by done. split; [done|lia].
Qed.

Lemma update_synergy_id_inr (cond : po_line → bool) (code : option string)
    (s : db) (r : unit * db) :
  update_synergy_id cond code s = inr r →
  r = (tt, set_po_lines (map (λ pl, if cond pl then with_synergy_id code pl else pl)) s).
Proof. unfold update_synergy_id. intros H. step_in H. by returned H. Qed.

Lemma mint_rows_keep_counter (rows : list (uuid * option string)) (updated updated1 : Z)
    (s s1 : db) :
  mint_rows rows updated s = inr (updated1, s1) → counter_kept P s s1.
Proof.
  revert updated s. induction rows as [|[line_id row_prefix] rest IH]; intros updated s H;
    cbn [mint_rows] in H.
  - returned H. apply counter_kept_refl.
  - step_as H Hrow. eapply counter_kept_trans; [|by eapply IH].
    unfold mint_row in Hrow. case_bool_decide.
    + returned Hrow. apply counter_kept_refl.
    + step_as Hrow Hnext. step_as Hrow Hup. returned Hrow.
      apply update_synergy_id_inr in Hup as [= _ ->].
      eapply counter_kept_trans; [by eapply allocation_keeps_counter|].
      by apply counter_kept_same.
Qed.

(** Mint keeps every counter. *)
Lemma mint_synergy_keeps_counter (now : Z) (po_id : uuid) (line_ids : list uuid)
    (overwrite : bool) (s : db) :
  counter_kept P s (mint_synergy now po_id line_ids overwrite s).2.
Proof.
  unfold mint_synergy. apply with_db_keeps_counter. intros n s1 H.
  step_as H Hover.
  assert (Hk0 : counter_kept P s s0).
  { destruct overwrite; [|returned Hover; apply counter_kept_refl].
    destruct line_ids; apply update_synergy_id_inr in Hover as [= _ ->];
      by apply counter_kept_same. }
  step_as H H1. step_as H H2. step_as H H3.
  eapply counter_kept_trans; [exact Hk0|]. by eapply mint_rows_keep_counter.
Qed.

Lemma explode_units_keep_counter (po_id : uuid) (ln : explode_row) (n : nat)
    (acc acc1 : explode_acc) (s s1 : db) :
  explode_units po_id ln n acc s = inr (acc1, s1) → counter_kept P s s1.
Proof.
  revert acc s. induction n as [|n IH]; intros acc s H; cbn [explode_units] in H.
  - returned H. apply counter_kept_refl.
  - step_as H Hcode. destruct a as [code codes].
    assert (Hk0 : counter_kept P s s0).
    { destruct (_ && _) in Hcode.
      - returned Hcode. apply counter_kept_refl.
      - step_as Hcode Hnext. returned Hcode. by eapply allocation_keeps_counter. }
    step_as H Hins. apply insert_inventory_item_inr in Hins as [= _ ->].
    eapply counter_kept_trans; [exact Hk0|].
    eapply counter_kept_trans; [|by eapply IH]. by apply counter_kept_same.
Qed.

Lemma explode_rows_keep_counter (po_id : uuid) (counts : gmap (option uuid) Z)
    (rows : list explode_row) (acc acc1 : explode_acc) (s s1 : db) :
  explode_rows po_id counts rows acc s = inr (acc1, s1) → counter_kept P s s1.
Proof.
  revert acc s. induction rows as [|ln rest IH]; intros acc s H; cbn [explode_rows] in H.
  - returned H. apply counter_kept_refl.
  - step_as H Hstep. eapply counter_kept_trans; [|by eapply IH].
    unfold explode_row_step in Hstep. destruct (uncategorised ln).
    + returned Hstep. apply counter_kept_refl.
    + destruct (row_need counts ln <=? 0).
      * returned Hstep. apply counter_kept_refl.
      * by eapply explode_units_keep_counter.
Qed.

(** Explode keeps every counter. *)
Lemma explode_by_line_keeps_counter (po_id : uuid) (s : db) :
  counter_kept P s (explode_by_line po_id s).2.
Proof.
  unfold explode_by_line. apply with_db_keeps_counter. intros r s1 H.
  apply explode_body_inr in H as (_ & _ & _ & acc1 & Hrows & _).
  by eapply explode_rows_keep_counter.
Qed.

End CounterKept.

(** A reset is the operation that can lower a counter: it puts it back
    to one more than what the data holds, and a code that was taken but
    stored nowhere comes out a second time. *)
Example reset_can_rewind :
  let s1 := (prefix_take "LAP" empty_db).2 in
  let s2 := (prefix_reset "LAP" None None s1).2 in
  (prefix_take "LAP" empty_db).1 = inr "LAP-00001"
  ∧ id_prefix_counters s1 !! "LAP" = Some (Some 2)
  ∧ id_prefix_counters s2 !! "LAP" = Some (Some 1)
  ∧ (prefix_take "LAP" s2).1 = inr "LAP-00001".
Proof. vm_compute. repeat split; reflexivity. Qed.



(** C8: a line without a resolved category or prefix is skipped, its
    whole quantity counted under [skipped], and changes nothing else; the
    loop over the lines of an order does to the tables, and raises, what
    the loop over the lines that have a category does, with those
    quantities added to [skipped]; and after an explosion that returned,
    every line of the order that has a category has at least its quantity
    of items. *)
Theorem uncategorised_lines_are_skipped (po_id : uuid) :
  (∀ counts ln acc s,
     uncategorised ln = true →
     explode_row_step po_id counts ln acc s = inr (skip_row ln acc, s))
  ∧ (∀ counts rows acc s,
       explode_rows po_id counts rows acc s
       = on_result (add_skipped (uncategorised_qty rows))
           (explode_rows po_id counts
              (List.filter (λ ln, negb (uncategorised ln)) rows) acc s))
  ∧ (∀ s s1 r,
       explode_by_line po_id s = (inr r, s1) →
       ∀ ln, ln ∈ explode_rows_of po_id s → uncategorised ln = false →
         row_qty ln ≤ have_of po_id (Some (xr_id ln)) (inventory_items s1)).
Proof.
  split; [|split].
  - intros counts ln acc s Hcat. unfold explode_row_step. by rewrite Hcat.
  - apply explode_rows_without_uncategorised.
  - apply explode_by_line_fills.
Qed.

Lemma uncategorised_lines_are_skipped_witness :
  explode_row_step 7 ∅ row_without_category fresh_acc mixed_order
  = inr (skip_row row_without_category fresh_acc, mixed_order)
  ∧ explode_rows_of 7 mixed_order !! 1%nat = Some row_without_category
  ∧ (explode_by_line 7 mixed_order).1
    = inr {| xres_created := 3; xres_skipped := 4; xres_state := "partial" |}
  ∧ (λ it, (ii_po_line_id it, ii_synergy_code it))
      <$> inventory_items (explode_by_line 7 mixed_order).2
    = [ (Some 1%N, Some "GEN-00001"); (Some 1%N, Some "GEN-00002");
        (Some 3%N, Some "GEN-00003") ].
Proof.
  split; [|split; [|split]].
  - apply (proj1 (uncategorised_lines_are_skipped 7) ∅ row_without_category
             fresh_acc mixed_order).
    reflexivity.
  - vm_compute. reflexivity.
  - vm_compute. reflexivity.
  - vm_compute. reflexivity.
Defined.


(* ===================================================================== *)
(** * Further properties *)
(* ===================================================================== *)

(** ** What the scan reads in a formatted code *)

Section ScanReadsFormat.

Lemma digit_val_of_uint_head (d : uint) (c : ascii) (rest : string) :
  NilEmpty.string_of_uint d = String c rest →
  Sql.is_space c = false ∧ Ascii.eqb c "-" = false ∧ Ascii.eqb c "+" = false.
Proof. destruct d; cbn; intros [= <- _]; repeat split; reflexivity. Qed.

Lemma read_digits_uint_acc (d : uint) (acc : positive) (k : nat) :
  Sql.read_digits (Z.pos acc) k (NilEmpty.string_of_uint d)
  = (Z.pos (Pos.of_uint_acc d acc),
     (k + String.length (NilEmpty.string_of_uint d))%nat, EmptyString).
Proof.
  revert acc k. induction d; intros acc k; cbn [NilEmpty.string_of_uint Sql.read_digits];
    [by rewrite Nat.add_0_r|..];
    (change (Sql.digit_val _) with (Some 0) || change (Sql.digit_val _) with (Some 1)
     || change (Sql.digit_val _) with (Some 2) || change (Sql.digit_val _) with (Some 3)
     || change (Sql.digit_val _) with (Some 4) || change (Sql.digit_val _) with (Some 5)
     || change (Sql.digit_val _) with (Some 6) || change (Sql.digit_val _) with (Some 7)
     || change (Sql.digit_val _) with (Some 8) || change (Sql.digit_val _) with (Some 9));
    cbv iota; cbn [Pos.of_uint_acc String.length];
    match goal with
    | |- Sql.read_digits ?a _ _ = (Z.pos (Pos.of_uint_acc _ ?b), _, _) =>
        replace a with (Z.pos b) by lia
    end;
    rewrite IHd; do 2 f_equal; lia.
Qed.

Lemma read_digits_uint (d : uint) (k : nat) :
  Sql.read_digits 0 k (NilEmpty.string_of_uint d)
  = (Z.of_uint d, (k + String.length (NilEmpty.string_of_uint d))%nat, EmptyString).
Proof.
  unfold Z.of_uint. revert k.
  induction d; intros k; cbn [NilEmpty.string_of_uint Sql.read_digits];
    [by rewrite Nat.add_0_r| |..].
  - change (Sql.digit_val "0") with (Some 0). cbv iota. cbn [Pos.of_uint String.length].
    change (10 * 0 + 0) with 0. rewrite IHd. do 2 f_equal. lia.
  - change (Sql.digit_val "1") with (Some 1). cbv iota. cbn [Pos.of_uint String.length].
    change (10 * 0 + 1) with (Z.pos 1). rewrite read_digits_uint_acc. do 2 f_equal. lia.
  - change (Sql.digit_val "2") with (Some 2). cbv iota. cbn [Pos.of_uint String.length].
    change (10 * 0 + 2) with (Z.pos 2). rewrite read_digits_uint_acc. do 2 f_equal. lia.
  - change (Sql.digit_val "3") with (Some 3). cbv iota. cbn [Pos.of_uint String.length].
    change (10 * 0 + 3) with (Z.pos 3). rewrite read_digits_uint_acc. do 2 f_equal. lia.
  - change (Sql.digit_val "4") with (Some 4). cbv iota. cbn [Pos.of_uint String.length].
    change (10 * 0 + 4) with (Z.pos 4). rewrite read_digits_uint_acc. do 2 f_equal. lia.
  - change (Sql.digit_val "5") with (Some 5). cbv iota. cbn [Pos.of_uint String.length].
    change (10 * 0 + 5) with (Z.pos 5). rewrite read_digits_uint_acc. do 2 f_equal. lia.
  - change (Sql.digit_val "6") with (Some 6). cbv iota. cbn [Pos.of_uint String.length].
    change (10 * 0 + 6) with (Z.pos 6). rewrite read_digits_uint_acc. do 2 f_equal. lia.
  - change (Sql.digit_val "7") with (Some 7). cbv iota. cbn [Pos.of_uint String.length].
    change (10 * 0 + 7) with (Z.pos 7). rewrite read_digits_uint_acc. do 2 f_equal. lia.
  - change (Sql.digit_val "8") with (Some 8). cbv iota. cbn [Pos.of_uint String.length].
    change (10 * 0 + 8) with (Z.pos 8). rewrite read_digits_uint_acc. do 2 f_equal. lia.
  - change (Sql.digit_val "9") with (Some 9). cbv iota. cbn [Pos.of_uint String.length].
    change (10 * 0 + 9) with (Z.pos 9). rewrite read_digits_uint_acc. do 2 f_equal. lia.
Qed.

Lemma read_digits_zeros (j k : nat) (s : string) :
  Sql.read_digits 0 k (Py.zeros j ++ s) = Sql.read_digits 0 (k + j) s.
Proof.
  revert k. induction j as [|j IH]; intros k; cbn [Py.zeros].
  - rewrite append_nil_l. by rewrite Nat.add_0_r.
  - rewrite append_cons_l. cbn [Sql.read_digits].
    change (Sql.digit_val "0") with (Some 0). cbv iota.
    change (10 * 0 + 0) with 0. rewrite IH. f_equal. lia.
Qed.

Lemma length_zeros (j : nat) : String.length (Py.zeros j) = j.
Proof. induction j as [|j IH]; cbn; [done|by rewrite IH]. Qed.

Lemma length_append (a b : string) :
  String.length (a ++ b) = (String.length a + String.length b)%nat.
Proof.
  induction a as [|c a IH]; rewrite ?append_nil_l, ?append_cons_l; cbn [String.length];
    [done|by rewrite IH].
Qed.

(** A zero-padded numeral has the shape the cast accepts, and the cast
    returns the number while it fits in 32 bits. *)
Lemma cast_integer_padded (j : nat) (d : uint) :
  d ≠ Nil →
  Z.of_uint d ≤ 2147483647 →
  Sql.cast_integer (Py.zeros j ++ NilEmpty.string_of_uint d) = Some (Z.of_uint d).
Proof.
  intros Hd Hmax. unfold Sql.cast_integer.
  assert (Hhead : ∃ c rest, Py.zeros j ++ NilEmpty.string_of_uint d = String c rest
                            ∧ Sql.is_space c = false ∧ Ascii.eqb c "-" = false
                            ∧ Ascii.eqb c "+" = false).
  { destruct j as [|j].
    - cbn [Py.zeros]. rewrite append_nil_l.
      destruct (NilEmpty.string_of_uint d) as [|c rest] eqn:E; [by destruct d|].
      exists c, rest. split; [done|]. by apply (digit_val_of_uint_head d c rest).
    - cbn [Py.zeros]. rewrite append_cons_l. eexists _, _. split; [done|]. done. }
  destruct Hhead as (c & rest & Hs & Hsp & Hm & Hp).
  assert (Hskip : Sql.skip_spaces (Py.zeros j ++ NilEmpty.string_of_uint d)
                  = Py.zeros j ++ NilEmpty.string_of_uint d).
  { rewrite Hs. cbn [Sql.skip_spaces]. by rewrite Hsp. }
  rewrite Hskip. rewrite Hs at 1. rewrite Hm, Hp.
  rewrite read_digits_zeros, read_digits_uint.
  assert (Hlen : ∃ n, (0 + j + String.length (NilEmpty.string_of_uint d))%nat = S n).
  { destruct d; cbn [NilEmpty.string_of_uint String.length]; try done;
      eexists; rewrite Nat.add_succ_r; reflexivity. }
  destruct Hlen as [n ->]. cbn [Sql.skip_spaces].
  assert (0 ≤ Z.of_uint d) by (unfold Z.of_uint; lia).
  rewrite !(proj2 (Z.leb_le _ _)) by lia. reflexivity.
Qed.

(** Padding a numeral without sign puts zeros in front of it. *)
Lemma zfill_uint (w : nat) (d : uint) :
  d ≠ Nil →
  Py.zfill w (NilEmpty.string_of_uint d)
  = Py.zeros (w - String.length (NilEmpty.string_of_uint d)) ++ NilEmpty.string_of_uint d.
Proof.
  intros Hd. unfold Py.zfill. destruct (Nat.leb_spec w (String.length (NilEmpty.string_of_uint d))).
  - replace (w - _)%nat with 0%nat by lia. reflexivity.
  - destruct (NilEmpty.string_of_uint d) as [|c rest] eqn:E; [by destruct d|].
    by rewrite (string_of_uint_head _ _ _ E).
Qed.

(** The numeral of a number that is not negative. *)
Lemma str_int_nonneg (n : Z) :
  0 ≤ n →
  ∃ d, d ≠ Nil ∧ Py.str_int n = NilEmpty.string_of_uint d ∧ Z.of_uint d = n.
Proof.
  intros Hn. rewrite str_int_nilempty. pose proof (DecimalZ.of_to n) as Hof.
  destruct n as [|p|p]; [| |lia].
  - exists (D0 Nil). done.
  - exists (Pos.to_uint p). split; [apply DecimalPos.Unsigned.to_uint_nonnil|done].
Qed.

Lemma cast_integer_zfill (w : nat) (n : Z) :
  0 ≤ n ≤ 2147483647 →
  Sql.cast_integer (Py.zfill w (Py.str_int n)) = Some n.
Proof.
  intros [Hn Hmax]. destruct (str_int_nonneg n Hn) as (d & Hd & -> & <-).
  rewrite zfill_uint by done. by apply cast_integer_padded.
Qed.

Lemma no_dash_zeros (j : nat) (s : string) :
  no_dash (Py.zeros j ++ s) = no_dash s.
Proof.
  induction j as [|j IH]; cbn [Py.zeros]; rewrite ?append_nil_l, ?append_cons_l; [done|].
  cbn [no_dash]. by rewrite IH.
Qed.

Lemma no_dash_uint (d : uint) : no_dash (NilEmpty.string_of_uint d) = true.
Proof. induction d; cbn [NilEmpty.string_of_uint no_dash]; [done|..]; exact IHd. Qed.

Lemma cut_dash_no_dash (t : string) :
  no_dash t = true → Sql.cut_dash t = (t, None).
Proof.
  induction t as [|c t IH]; [done|]. cbn [no_dash Sql.cut_dash].
  destruct (Ascii.eqb c "-"); [done|]. cbn [negb andb]. intros H. by rewrite (IH H).
Qed.

Lemma cut_dash_prefix (p t : string) :
  no_dash p = true → Sql.cut_dash (p ++ String "-" t) = (p, Some t).
Proof.
  induction p as [|c p IH]; [reflexivity|]. rewrite append_cons_l.
  cbn [no_dash Sql.cut_dash].
  destruct (Ascii.eqb c "-"); [done|].
    cbn [negb andb]. intros H. by rewrite (IH H).
Qed.

Lemma plain_no_dash (p : string) : plain p = true → no_dash p = true.
Proof.
  induction p as [|c p IH]; [done|]. cbn [plain no_dash].
  destruct (Ascii.eqb c "-"); [done|]. cbn [negb andb].
  intros H. apply IH. by repeat (apply andb_prop in H as [_ H] || idtac).
Qed.

Lemma like_percent (t : string) : Sql.like "%" t = true.
Proof.
  cbn [Sql.like]. change (Ascii.eqb "%" "%") with true. cbv iota.
  induction t as [|c t IH]; [reflexivity|]. exact IH.
Qed.

(** For a plain prefix the pattern [prefix-%] matches exactly the codes
    that begin with the prefix and a dash. *)
Lemma like_plain_prefix (p code : string) :
  plain p = true →
  Sql.like (p ++ "-%") code = true ↔ ∃ t, code = p ++ String "-" t.
Proof.
  intros Hp. revert code. induction p as [|c p IH]; intros code.
  - rewrite append_nil_l. split.
    + destruct code as [|c t]; [discriminate|]. cbn [Sql.like].
      change (Ascii.eqb "-" "%") with false. change (Ascii.eqb "-" "_") with false.
      change (Ascii.eqb "-" Sql.backslash) with false. cbv iota.
      intros H. apply andb_prop in H as [H _]. apply Ascii.eqb_eq in H as <-. by exists t.
    + intros [t ->]. rewrite append_nil_l. cbn [Sql.like].
      change (Ascii.eqb "-" "%") with false. change (Ascii.eqb "-" "_") with false.
      change (Ascii.eqb "-" Sql.backslash) with false. cbv iota.
      change (Ascii.eqb "-" "-") with true. cbn [andb]. apply like_percent.
  - cbn [plain] in Hp.
    destruct (Ascii.eqb c "-") eqn:E1; [done|]. destruct (Ascii.eqb c "%") eqn:E2; [done|].
    destruct (Ascii.eqb c "_") eqn:E3; [done|].
    destruct (Ascii.eqb c Sql.backslash) eqn:E4; [done|]. cbn [negb andb] in Hp.
    rewrite append_cons_l. cbn [Sql.like]. rewrite E2, E3, E4. split.
    + destruct code as [|c' t]; [discriminate|]. intros H.
      apply andb_prop in H as [Hc H]. apply Ascii.eqb_eq in Hc as <-.
      apply (IH Hp) in H as [t' ->]. exists t'. by rewrite append_cons_l.
    + intros [t ->]. rewrite append_cons_l. rewrite Ascii.eqb_refl. cbn [andb].
      apply (IH Hp). by exists t.
Qed.

Lemma seq_of_code_padded (p : string) (w : nat) (n : Z) :
  no_dash p = true → 0 ≤ n ≤ 2147483647 →
  seq_of_code (p ++ "-" ++ Py.zfill w (Py.str_int n)) = inr (Some n).
Proof.
  intros Hp Hn. unfold seq_of_code, Sql.split_part_2.
  change (p ++ "-" ++ Py.zfill w (Py.str_int n))
    with (p ++ String "-" (Py.zfill w (Py.str_int n))).
  rewrite (cut_dash_prefix _ _ Hp). cbn [snd].
  destruct (str_int_nonneg n (proj1 Hn)) as (d & Hd & Hstr & Hval).
  assert (Hnd : no_dash (Py.zfill w (Py.str_int n)) = true).
  { rewrite Hstr, zfill_uint by done. rewrite no_dash_zeros. apply no_dash_uint. }
  rewrite (cut_dash_no_dash _ Hnd). cbn [fst].
  assert (Hne : Sql.nullif_empty (Py.zfill w (Py.str_int n))
                = Some (Py.zfill w (Py.str_int n))).
  { pose proof (cast_integer_zfill w n Hn) as Hc.
    destruct (Py.zfill w (Py.str_int n)); [discriminate Hc|reflexivity]. }
  rewrite Hne. by rewrite cast_integer_zfill.
Qed.

End ScanReadsFormat.

(** A code formatted for a plain prefix, with five digits or with four,
    matches the pattern of the recovery scan, and the scan reads its
    sequence number back, as long as that number fits in 32 bits. *)
Theorem formatted_code_is_read_back (P : string) (n : Z) :
  plain P = true →
  0 ≤ n ≤ 2147483647 →
  (Sql.like (P ++ "-%") (fmt_synergy P n) = true
   ∧ seq_of_code (fmt_synergy P n) = inr (Some n))
  ∧ (Sql.like (P ++ "-%") (Legacy.fmt_synergy P n) = true
     ∧ seq_of_code (Legacy.fmt_synergy P n) = inr (Some n)).
Proof.
  intros Hp Hn. pose proof (plain_no_dash _ Hp) as Hd.
  unfold fmt_synergy, Legacy.fmt_synergy. repeat split.
  - apply (like_plain_prefix _ _ Hp). by eexists.
  - by apply seq_of_code_padded.
  - apply (like_plain_prefix _ _ Hp). by eexists.
  - by apply seq_of_code_padded.
Qed.

Lemma formatted_code_is_read_back_witness :
  (Sql.like ("LAP" ++ "-%") (fmt_synergy "LAP" 8) = true
   ∧ seq_of_code (fmt_synergy "LAP" 8) = inr (Some 8))
  ∧ (Sql.like ("LAP" ++ "-%") (Legacy.fmt_synergy "LAP" 8) = true
     ∧ seq_of_code (Legacy.fmt_synergy "LAP" 8) = inr (Some 8)).
Proof. apply (formatted_code_is_read_back "LAP" 8); [reflexivity|lia]. Defined.



(** For one prefix, different sequence numbers give different codes, in
    either width. *)
Theorem fmt_synergy_distinct (P : string) (a b : Z) :
  a ≠ b →
  fmt_synergy P a ≠ fmt_synergy P b ∧ Legacy.fmt_synergy P a ≠ Legacy.fmt_synergy P b.
Proof.
  intros Hab. split; intros Heq; apply Hab.
  - by apply (fmt_synergy_inj P).
  - unfold Legacy.fmt_synergy in Heq. apply append_cancel_l, append_cancel_l in Heq.
    apply (f_equal decode_numeral) in Heq. rewrite !decode_zfill in Heq. congruence.
Qed.

Lemma fmt_synergy_distinct_witness :
  fmt_synergy "LAP" 8 ≠ fmt_synergy "LAP" 9
  ∧ Legacy.fmt_synergy "LAP" 8 ≠ Legacy.fmt_synergy "LAP" 9.
Proof. apply (fmt_synergy_distinct "LAP" 8 9). lia. Defined.

(** ** When the scan returns *)






(** ** Reset and manual set *)

Section ResetAndSet.

Variable P : string.

(** The scan reads the lines, the items and nothing else. *)
Lemma scan_tables_same_data (ts : list table) (acc : Z) (s s1 : db) :
  same_data s s1 →
  scan_tables ts P acc s1
  = match scan_tables ts P acc s with
    | inl e => inl e
    | inr (m, _) => inr (m, s1)
    end.
Proof.
  intros (Hl & Hi & Hc & Ho). revert acc.
  induction ts as [|t rest IH]; intros acc; cbn [scan_tables]; [reflexivity|].
  assert (Hsel : select_max_seq t P s1
                 = match select_max_seq t P s with
                   | inl e => inl e
                   | inr (m, _) => inr (m, s1)
                   end).
  { unfold select_max_seq, mbind, M_bind, touch, get_db. rewrite Ho.
    case_bool_decide; [reflexivity|].
    assert (Hcol : synergy_id_column t s1 = synergy_id_column t s)
      by (destruct t; cbn [synergy_id_column]; by rewrite ?Hl, ?Hi).
    rewrite Hcol. by destruct (max_seq_of _). }
  unfold mbind, M_bind. rewrite Hsel.
  destruct (select_max_seq t P s) as [e|[m s2]] eqn:Hs; [reflexivity|].
  apply select_max_seq_inr in Hs as (_ & ? & _ & [= _ ->]). apply IH.
Qed.


(** What an accepted reset has done: [next_seq] is one more than the scan
    found, the counter is above the data, one [reset_to_default] event is
    in the audit log, and lines, items and categories are untouched. *)
Lemma prefix_reset_inr actor actor_name (s s1 : db) (n : Z) :
  prefix_reset P actor actor_name s = (inr n, s1) →
  ∃ m, _get_true_max_seq P s = inr (m, s) ∧ n = m + 1
       ∧ id_prefix_counters s1 = <[P := Some n]> (id_prefix_counters s)
       ∧ same_data s s1
       ∧ ((id_prefix_counters_t, Write) ∉ outage s)
       ∧ ((synergy_id_events_t, Write) ∉ outage s)
       ∧ ∃ ev, synergy_id_events s1 = (synergy_id_events s ++ [ev])%list
               ∧ ev_event_type ev = "reset_to_default" ∧ ev_seq ev = n
               ∧ ev_meta ev = MetaSafeNext n.
Proof.
  unfold prefix_reset. rewrite with_db_inr. intros H.
  step_as H Hscan. pose proof (true_max_seq_spec _ _ _ _ Hscan) as (-> & _).
  step_as H Hup. apply upsert_next_seq_inr in Hup as [Hw [= _ ->]].
  step_as H Hlog. unfold log_synergy_event in Hlog. step_as Hlog Ht. returned Hlog.
  returned H. eexists. split; [exact Hscan|]. split; [done|]. split; [done|].
  split; [done|]. split; [done|]. split; [done|]. eexists. split; [reflexivity|]. done.
Qed.

End ResetAndSet.



Lemma or_int_zero (o : option Z) : Py.or_int o 0 = default 0 o.
Proof. destruct o as [[| |]|]; reflexivity. Qed.

(** A manual set of [routes_synergy.py] at or above the safe minimum is
    accepted: the counter holds exactly the requested value, and the audit
    log receives one [manual_set_next] event with the old value, the new
    value and the reason of the request; nothing else changes. *)
Theorem prefix_set_accepts_from_safe_minimum
    (P : string) (body : set_body) (s : db) (nxt true_max_seq : Z) :
  int_of_next (sb_next body) = Some nxt →
  (id_prefix_counters_t, Read) ∉ outage s →
  (id_prefix_counters_t, Write) ∉ outage s →
  (synergy_id_events_t, Write) ∉ outage s →
  _get_true_max_seq P s = inr (true_max_seq, s) →
  1 ≤ nxt →
  Z.max (true_max_seq + 1) (current_next_seq P s) ≤ nxt →
  prefix_set P body s
  = (inr nxt,
     set_events
       (λ evs, (evs ++ [ {| ev_actor_name := Py.or_str (sb_actor body) (sb_actor_name body);
                            ev_po_id := None; ev_po_line_id := None;
                            ev_inventory_id := None;
                            ev_prefix := P; ev_code := fmt_synergy P nxt;
                            ev_seq := nxt; ev_event_type := "manual_set_next";
                            ev_meta := MetaManual (current_next_seq P s) nxt
                                         (sb_reason body) |} ])%list)
       (set_counters (λ m, <[P := Some nxt]> m) s)).
Proof.
  intros Hnext Hr Hw Hlog Hscan H1 Hge. unfold prefix_set. rewrite Hnext.
  destruct (Z.ltb_spec nxt 1) as [?|_]; [lia|].
  unfold with_db, prefix_set_body.
  assert (Hsel : select_next_seq P s = inr (id_prefix_counters s !! P, s))
    by (by apply select_next_seq_inr).
  rewrite (bind_step _ _ _ _ _ Hsel), (bind_step _ _ _ _ _ Hscan).
  pose proof (true_max_seq_spec _ _ _ _ Hscan) as (_ & Htm & _).
  rewrite safe_min_next_eq by exact Htm. rewrite or_int_zero.
  fold (current_next_seq P s).
  destruct (Z.ltb_spec nxt (Z.max (true_max_seq + 1) (current_next_seq P s))) as [?|_];
    [lia|].
  assert (Hup : upsert_next_seq P nxt s
                = inr (tt, set_counters (λ m, <[P := Some nxt]> m) s))
    by (by apply upsert_next_seq_inr).
  rewrite (bind_step _ _ _ _ _ Hup). unfold log_synergy_event.
  rewrite (bind_step _ _ _ _ _
             (bind_step _ _ _ _ _
                (touch_ok synergy_id_events_t Write
                   (set_counters (λ m, <[P := Some nxt]> m) s) Hlog))).
  reflexivity.
Qed.

Lemma prefix_set_accepts_from_safe_minimum_witness :
  (prefix_set "LAP" (no_body (NextInt 11)) lap_ten).1 = inr 11
  ∧ id_prefix_counters (prefix_set "LAP" (no_body (NextInt 11)) lap_ten).2 !! "LAP"
    = Some (Some 11).
Proof.
  rewrite (prefix_set_accepts_from_safe_minimum "LAP" (no_body (NextInt 11)) lap_ten 11 10).
  - split; reflexivity.
  - reflexivity.
  - exact (not_elem_of_nil _).
  - exact (not_elem_of_nil _).
  - exact (not_elem_of_nil _).
  - vm_compute. reflexivity.
  - lia.
  - vm_compute. discriminate.
Defined.

(** The audit insert of reset and of manual set is not guarded as the one
    of the allocator is: while the audit log cannot be written, neither a
    reset nor a manual set ever succeeds, and both leave every table as it
    was. *)
Theorem audit_failure_aborts_reset_and_set (P : string) (s : db) :
  (synergy_id_events_t, Write) ∈ outage s →
  (∀ actor actor_name, ∃ e, prefix_reset P actor actor_name s = (inl e, s))
  ∧ (∀ body, ∃ e, prefix_set P body s = (inl e, s)).
Proof.
  intros Hdown. split.
  - intros actor actor_name.
    destruct (prefix_reset P actor actor_name s) as [[e|n] s1] eqn:H.
    + unfold prefix_reset in H. apply with_db_inl in H as [_ ->]. eauto.
    + apply prefix_reset_inr in H as (_ & _ & _ & _ & _ & _ & Hlog & _). done.
  - intros body. unfold prefix_set.
    destruct (int_of_next (sb_next body)) as [nxt|]; [|eauto].
    destruct (nxt <? 1); [eauto|].
    destruct (with_db (prefix_set_body P nxt body) s) as [[e|n] s1] eqn:H.
    + apply with_db_inl in H as [_ ->]. eauto.
    + exfalso. apply with_db_inr in H. unfold prefix_set_body in H.
      step_as H Hsel. apply select_next_seq_inr in Hsel as [_ [= -> ->]].
      step_as H Hscan. pose proof (true_max_seq_spec _ _ _ _ Hscan) as (-> & _).
      destruct (nxt <? Z.max _ _); [discriminate|].
      step_as H Hup. apply upsert_next_seq_inr in Hup as [_ [= _ ->]].
      step_as H Hlog. apply log_synergy_event_inr in Hlog as (Hok & _). done.
Qed.

Lemma audit_failure_aborts_reset_and_set_witness :
  (∀ actor actor_name, ∃ e,
     prefix_reset "LAP" actor actor_name (with_outage [(synergy_id_events_t, Write)] lap_ten)
     = (inl e, with_outage [(synergy_id_events_t, Write)] lap_ten))
  ∧ (∀ body, ∃ e,
       prefix_set "LAP" body (with_outage [(synergy_id_events_t, Write)] lap_ten)
       = (inl e, with_outage [(synergy_id_events_t, Write)] lap_ten)).
Proof.
  apply (audit_failure_aborts_reset_and_set "LAP").
  apply list_elem_of_singleton. reflexivity.
Defined.

(** ** Preview *)

Section Preview.

Lemma max_seq_for_prefix_inr (p : string) (sbp sbp1 : gmap string Z) (s s1 : db) (m : Z) :
  max_seq_for_prefix p sbp s = inr ((m, sbp1), s1) →
  s1 = s ∧
  ((p = EmptyString ∨ is_Some (sbp !! p)) ∧ m = default 0 (sbp !! p) ∧ sbp1 = sbp
   ∨ (p ≠ EmptyString ∧ sbp !! p = None
      ∧ scan_tables [inventory_items_t; po_lines_t] p 0 s = inr (m, s)
      ∧ sbp1 = <[p := m]> sbp)).
Proof.
  unfold max_seq_for_prefix. intros H.
  destruct (bool_decide (p = EmptyString) || bool_decide (is_Some (sbp !! p))) eqn:Hc.
  - returned H. split; [done|left]. split; [|done].
    apply orb_prop in Hc as [Hc|Hc]; apply bool_decide_eq_true_1 in Hc; auto.
  - step_as H Hscan. pose proof (scan_tables_reads _ _ _ _ _ _ Hscan) as ->.
    returned H. split; [done|right].
    apply orb_false_elim in Hc as [Hc1 Hc2].
    apply bool_decide_eq_false_1 in Hc1, Hc2.
    split; [done|split; [|done]]. by apply eq_None_not_Some.
Qed.

Lemma preview_codes_block (p : string) (start qty : Z) :
  (λ i, p ++ "-" ++ Py.zfill 5 (Py.str_int (start + i))) <$> seqZ 0 qty
  = fmt_synergy p <$> seqZ start qty.
Proof.
  replace (seqZ start qty) with (Z.add start <$> seqZ 0 qty)
    by (rewrite fmap_add_seqZ; f_equal; lia).
  rewrite <- list_fmap_compose. reflexivity.
Qed.

(** One turn of the preview loop. *)
Lemma preview_row_inr (s0 : db) (r : po_line) (sbp sbp1 : gmap string Z) (s s1 : db)
    (pv : preview) :
  preview_row s0 r sbp s = inr ((pv, sbp1), s1) →
  s1 = s ∧ pv_line_id pv = pl_id r ∧ pv_qty pv = preview_qty r
  ∧ pv_prefix pv = line_prefix s0 r
  ∧ ((line_prefix s0 r = EmptyString ∧ pv_codes pv = [] ∧ is_Some (pv_note pv)
      ∧ sbp1 = sbp)
     ∨ (line_prefix s0 r ≠ EmptyString ∧ pv_note pv = None
        ∧ ∃ b, (sbp !! line_prefix s0 r = Some b
                ∨ (sbp !! line_prefix s0 r = None
                   ∧ _get_true_max_seq (line_prefix s0 r) s = inr (b, s)))
               ∧ pv_codes pv = fmt_synergy (line_prefix s0 r) <$> seqZ (b + 1) (preview_qty r)
               ∧ sbp1 !! line_prefix s0 r = Some (b + preview_qty r)
               ∧ ∀ q, q ≠ line_prefix s0 r → sbp1 !! q = sbp !! q)).
Proof.
  unfold preview_row. fold (preview_qty r). fold (line_prefix s0 r). intros H.
  case_bool_decide as Hp.
  - returned H. rewrite Hp. cbn [pv_line_id pv_qty pv_prefix pv_codes pv_note].
    split; [done|split; [done|split; [done|split; [done|]]]]. left.
    split; [done|split; [done|split; [by eexists|done]]].
  - step_as H Hmax. destruct a as [m sbp']. returned H.
    apply max_seq_for_prefix_inr in Hmax as [-> Hmax].
    cbn [pv_line_id pv_qty pv_prefix pv_codes pv_note].
    split; [done|split; [done|split; [done|split; [done|]]]].
    right. split; [done|split; [done|]].
    exists m. rewrite preview_codes_block.
    destruct Hmax as [([?|[b Hb]] & -> & ->)|(_ & Hnone & Hscan & ->)]; [done| |].
    + rewrite Hb. cbn [default from_option id]. split; [by left|]. split; [done|].
      split; [rewrite lookup_insert_eq; f_equal; lia|].
      intros q Hq. by rewrite lookup_insert_ne.
    + split; [by right|]. split; [done|].
      split; [rewrite lookup_insert_eq; f_equal; lia|].
      intros q Hq. by rewrite !lookup_insert_ne.
Qed.

Lemma preview_rows_reads (s0 : db) (rows : list po_line) (sbp : gmap string Z)
    (s s1 : db) (ps : list preview) :
  preview_rows s0 rows sbp s = inr (ps, s1) → s1 = s.
Proof.
  revert sbp ps s1.
  induction rows as [|r rest IH]; intros sbp ps s1 H; cbn [preview_rows] in H.
  - by returned H.
  - step_as H Hrow. destruct a as [pv sbp1]. apply preview_row_inr in Hrow as (-> & _).
    step_as H Hrest. apply IH in Hrest as ->. by returned H.
Qed.




(** Running on other tables a computation that only reads, and reads the
    same there. *)
Lemma moved_to_bind {A B} (m m' : M A) (f f' : A → M B) (s s1 : db) :
  m' s1 = moved_to s1 (m s) →
  (∀ a s2, m s = inr (a, s2) → s2 = s) →
  (∀ a, f' a s1 = moved_to s1 (f a s)) →
  (m' ≫= f') s1 = moved_to s1 ((m ≫= f) s).
Proof.
  intros Hm Hr Hf. unfold mbind, M_bind. rewrite Hm.
  destruct (m s) as [e|[a s2]] eqn:E; cbn [moved_to]; [reflexivity|].
  rewrite (Hr _ _ eq_refl). apply Hf.
Qed.

Lemma max_seq_for_prefix_same_data (p : string) (sbp : gmap string Z) (s s1 : db) :
  same_data s s1 →
  max_seq_for_prefix p sbp s1 = moved_to s1 (max_seq_for_prefix p sbp s).
Proof.
  intros Hd. unfold max_seq_for_prefix. destruct (_ || _); [reflexivity|].
  apply moved_to_bind.
  - exact (scan_tables_same_data _ _ _ _ _ Hd).
  - intros a s2. apply scan_tables_reads.
  - reflexivity.
Qed.

(** The preview reads the lines, the items and the categories only. *)
Lemma preview_rows_same_data (s0 s0' : db) (rows : list po_line) (sbp : gmap string Z)
    (s s1 : db) :
  categories s0' = categories s0 →
  same_data s s1 →
  preview_rows s0' rows sbp s1 = moved_to s1 (preview_rows s0 rows sbp s).
Proof.
  intros Hc0 Hd. revert sbp. induction rows as [|r rest IH]; intros sbp;
    cbn [preview_rows]; [reflexivity|].
  apply moved_to_bind.
  - unfold preview_row, joined_prefix. rewrite Hc0. case_bool_decide; [reflexivity|].
    apply moved_to_bind.
    + by apply max_seq_for_prefix_same_data.
    + intros [m sbp'] s2 Hm. by apply max_seq_for_prefix_inr in Hm as [-> _].
    + by intros [m sbp'].
  - intros [pv sbp1] s2 Hrow. by apply preview_row_inr in Hrow as (-> & _).
  - intros [pv sbp1]. apply moved_to_bind.
    + apply IH.
    + intros ps s2. apply preview_rows_reads.
    + reflexivity.
Qed.

Lemma synergy_preview_inr (now : Z) (po_id : uuid) (line_ids : list uuid) (s s1 : db)
    (ps : list preview) :
  synergy_preview now po_id line_ids s = (inr ps, s1) →
  s1 = s ∧ (line_ids = [] ∧ ps = []
            ∨ line_ids ≠ [] ∧
              preview_rows s (preview_selection now po_id line_ids s) ∅ s = inr (ps, s)).
Proof.
  unfold synergy_preview. destruct line_ids as [|i ids].
  - intros [= <- <-]. auto.
  - rewrite with_db_inr. intros H. step_as H H1. step_as H H2. step_as H H3.
    pose proof (preview_rows_reads _ _ _ _ _ _ H) as ->. split; [done|right].
    split; [done|exact H].
Qed.

End Preview.

(** The preview writes nothing: whatever it answers, the tables are as
    they were. *)
Theorem preview_writes_nothing (now : Z) (po_id : uuid) (line_ids : list uuid) (s : db) :
  (synergy_preview now po_id line_ids s).2 = s.
Proof.
  destruct (synergy_preview now po_id line_ids s) as [[e|ps] s1] eqn:H; cbn [snd].
  - unfold synergy_preview in H. destruct line_ids; [discriminate|].
    by apply with_db_inl in H as [_ ->].
  - by apply synergy_preview_inr in H as [-> _].
Qed.

(** The preview never looks at the counters or at the audit log: on two
    states with the same lines, items, categories and outages it answers
    the same. *)
Theorem preview_ignores_counters (now : Z) (po_id : uuid) (line_ids : list uuid)
    (s s1 : db) :
  same_data s s1 →
  (synergy_preview now po_id line_ids s1).1 = (synergy_preview now po_id line_ids s).1.
Proof.
  intros Hd. pose proof Hd as (Hl & Hi & Hc & Ho).
  unfold synergy_preview. destruct line_ids as [|i ids]; [reflexivity|].
  assert (Htouch : ∀ t a, touch t a s1 = moved_to s1 (touch t a s)).
  { intros t a. unfold touch. rewrite Ho. by case_bool_decide. }
  assert (Hreads : ∀ t a u s2, touch t a s = inr (u, s2) → s2 = s).
  { intros t a u s2 Ht. apply touch_inr in Ht as [_ Ht]. by simplify_eq. }
  unfold with_db.
  match goal with
  | |- (match ?b s1 with _ => _ end).1 = _ => set (body := b)
  end.
  assert (Hbody : body s1 = moved_to s1 (body s)).
  { subst body. apply moved_to_bind; [apply Htouch|apply Hreads|intros _].
    apply moved_to_bind; [apply Htouch|apply Hreads|intros _].
    rewrite (bind_step get_db _ s1 s1 s1 eq_refl), (bind_step get_db _ s s s eq_refl).
    cbv beta zeta. rewrite Hl. by apply preview_rows_same_data. }
  rewrite Hbody.
  by destruct (body s) as [e|[ps s2]].
Qed.

Lemma preview_ignores_counters_witness :
  (synergy_preview 0 7 [1%N; 2%N] gen_exploded).1
  = (synergy_preview 0 7 [1%N; 2%N]
       (set_counters (λ _, ∅) gen_exploded)).1.
Proof.
  apply (preview_ignores_counters 0 7 [1%N; 2%N]
           (set_counters (λ _, ∅) gen_exploded) gen_exploded).
  repeat split.
Defined.





(** ** Mint statistics *)

Section MintStats.

Variable po_id : uuid.

Lemma mint_stats_inr (s s1 : db) (r : mint_stats_result) :
  mint_stats po_id s = (inr r, s1) ↔
  ((po_lines_t, Read) ∉ outage s) ∧ ((inventory_items_t, Read) ∉ outage s) ∧ s1 = s
  ∧ r = {| ms_total_qty := sql_sum (fst <$> totals_with_minted po_id s);
           ms_minted := sql_sum (snd <$> totals_with_minted po_id s);
           ms_pending :=
             sql_sum ((λ r, Z.max (r.1 - r.2) 0) <$> totals_with_minted po_id s) |}.
Proof.
  unfold mint_stats. rewrite with_db_inr. split.
  - intros H. step_as H H1. step_as H H2. step_as H H3. returned H. done.
  - intros (H1 & H2 & -> & ->).
    rewrite (bind_step _ _ _ _ _ (touch_ok _ _ _ H1)).
    rewrite (bind_step _ _ _ _ _ (touch_ok _ _ _ H2)). reflexivity.
Qed.

(** The rows the sums run over: a positive quantity beside a count of
    items. *)
Lemma totals_with_minted_rows (s : db) :
  Forall (λ r : Z * Z, 0 < r.1 ∧ 0 ≤ r.2) (totals_with_minted po_id s).
Proof.
  unfold totals_with_minted, line_totals. apply Forall_fmap, Forall_forall.
  intros [id q] Hin. apply list_elem_of_omap in Hin as (pl & _ & Hpl).
  unfold compose. cbn [fst snd]. split.
  - destruct (N.eqb _ _ && (0 <? default 1 (pl_qty pl)) && _) eqn:Hc; [|discriminate].
    injection Hpl as _ <-. apply andb_prop in Hc as [Hc _].
    apply andb_prop in Hc as [_ Hc]. by apply Z.ltb_lt.
  - rewrite existing_counts_of_have. apply have_of_nonneg.
Qed.

Lemma stats_sums (rows : list (Z * Z)) :
  Forall (λ r : Z * Z, 0 < r.1 ∧ 0 ≤ r.2) rows →
  0 ≤ sql_sum ((λ r, Z.max (r.1 - r.2) 0) <$> rows) ≤ sql_sum (fst <$> rows)
  ∧ 0 ≤ sql_sum (snd <$> rows)
  ∧ sql_sum (fst <$> rows)
    ≤ sql_sum (snd <$> rows) + sql_sum ((λ r, Z.max (r.1 - r.2) 0) <$> rows).
Proof.
  unfold sql_sum. induction 1 as [|[q m] rest [Hq Hm] _ IH]; [cbn; lia|].
  rewrite !fmap_cons. cbn [foldr fst snd] in *. lia.
Qed.

Lemma pending_zero (rows : list (Z * Z)) :
  sql_sum ((λ r, Z.max (r.1 - r.2) 0) <$> rows) = 0 ↔ Forall (λ r, r.1 ≤ r.2) rows.
Proof.
  assert (Hnn : ∀ l : list (Z * Z), 0 ≤ sql_sum ((λ r, Z.max (r.1 - r.2) 0) <$> l)).
  { unfold sql_sum. induction l as [|x l IH]; [cbn; lia|].
    rewrite fmap_cons. cbn [foldr]. lia. }
  induction rows as [|[q m] rest IH]; [split; [constructor|reflexivity]|].
  rewrite fmap_cons, Forall_cons, <- IH. specialize (Hnn rest).
  unfold sql_sum in *. cbn [foldr fst snd]. lia.
Qed.

(** The lines [mint_stats] counts, and what it sets beside each. *)
Lemma totals_with_minted_filled (s : db) :
  Forall (λ r, r.1 ≤ r.2) (totals_with_minted po_id s) ↔
  ∀ pl, pl ∈ po_lines s → pl_purchase_order_id pl = po_id →
    0 < default 1 (pl_qty pl) → pl_category_guess pl ≠ None →
    default 1 (pl_qty pl) ≤ have_of po_id (Some (pl_id pl)) (inventory_items s).
Proof.
  unfold totals_with_minted, line_totals. rewrite Forall_fmap, Forall_forall. split.
  - intros Hall pl Hin Hpo Hq Hcat.
    specialize (Hall (pl_id pl, default 1 (pl_qty pl))). unfold compose in Hall.
    cbn [fst snd] in Hall. rewrite existing_counts_of_have in Hall. apply Hall.
    apply list_elem_of_omap. exists pl. split; [done|].
    rewrite Hpo, N.eqb_refl, (proj2 (Z.ltb_lt _ _) Hq), bool_decide_eq_true_2 by done.
    reflexivity.
  - intros H [id q] Hin. apply list_elem_of_omap in Hin as (pl & Hin & Hpl).
    unfold compose. cbn [fst snd]. rewrite existing_counts_of_have.
    destruct (N.eqb _ _ && (0 <? default 1 (pl_qty pl)) && _) eqn:Hc; [|discriminate].
    injection Hpl as <- <-. apply andb_prop in Hc as [Hc Hcat].
    apply andb_prop in Hc as [Hpo Hq].
    apply N.eqb_eq in Hpo. apply Z.ltb_lt in Hq. apply bool_decide_eq_true_1 in Hcat.
    by apply H.
Qed.

End MintStats.

(** [mint_stats] writes nothing, and what it answers is coherent: pending
    is between 0 and the total quantity, minted is not negative, and
    minted and pending together cover the total. *)
Theorem mint_stats_bounds (po_id : uuid) (s s1 : db) (r : mint_stats_result) :
  mint_stats po_id s = (inr r, s1) →
  s1 = s
  ∧ 0 ≤ ms_pending r ≤ ms_total_qty r
  ∧ 0 ≤ ms_minted r
  ∧ ms_total_qty r ≤ ms_minted r + ms_pending r.
Proof.
  intros H. apply mint_stats_inr in H as (_ & _ & -> & ->).
  split; [done|]. cbn [ms_pending ms_total_qty ms_minted].
  apply stats_sums, totals_with_minted_rows.
Qed.

Lemma mint_stats_bounds_witness :
  gen_minted = gen_minted
  ∧ 0 ≤ 5 ≤ 5
  ∧ 0 ≤ 0
  ∧ 5 ≤ 0 + 5.
Proof.
  apply (mint_stats_bounds 7 gen_minted gen_minted
           {| ms_total_qty := 5; ms_minted := 0; ms_pending := 5 |}).
  vm_compute. reflexivity.
Defined.

(** [mint_stats] reports nothing pending exactly when every line of the
    order that has a category and a positive quantity has at least that
    many items of the order attached to it. *)
Theorem mint_stats_pending_zero_iff (po_id : uuid) (s s1 : db) (r : mint_stats_result) :
  mint_stats po_id s = (inr r, s1) →
  (ms_pending r = 0 ↔
   ∀ pl, pl ∈ po_lines s → pl_purchase_order_id pl = po_id →
     0 < default 1 (pl_qty pl) → pl_category_guess pl ≠ None →
     default 1 (pl_qty pl) ≤ have_of po_id (Some (pl_id pl)) (inventory_items s)).
Proof.
  intros H. apply mint_stats_inr in H as (_ & _ & -> & ->). cbn [ms_pending].
  by rewrite pending_zero, totals_with_minted_filled.
Qed.

Lemma mint_stats_pending_zero_iff_witness :
  0 = 0 ↔
  ∀ pl, pl ∈ po_lines gen_exploded → pl_purchase_order_id pl = 7%N →
    0 < default 1 (pl_qty pl) → pl_category_guess pl ≠ None →
    default 1 (pl_qty pl) ≤ have_of 7 (Some (pl_id pl)) (inventory_items gen_exploded).
Proof.
  apply (mint_stats_pending_zero_iff 7 gen_exploded gen_exploded
           {| ms_total_qty := 5; ms_minted := 5; ms_pending := 0 |}).
  vm_compute. reflexivity.
Defined.

(** ** The counter endpoints of [main.py] *)

Lemma legacy_fmt_synergy_inj (p : string) (a b : Z) :
  Legacy.fmt_synergy p a = Legacy.fmt_synergy p b → a = b.
Proof.
  unfold Legacy.fmt_synergy. intros H. apply append_cancel_l, append_cancel_l in H.
  apply (f_equal decode_numeral) in H. rewrite !decode_zfill in H. congruence.
Qed.

Lemma legacy_bump_next_seq_ok (P : string) (s : db) :
  (id_prefix_counters_t, Write) ∉ outage s →
  Legacy.bump_next_seq P s = inr (tt, set_counters (alter (fmap Z.succ) P) s).
Proof.
  intros Hw. unfold Legacy.bump_next_seq.
  by rewrite (bind_step _ _ _ _ _ (touch_ok _ _ _ Hw)).
Qed.

Lemma legacy_insert_next_seq_ok (P : string) (n : Z) (s : db) :
  (id_prefix_counters_t, Write) ∉ outage s →
  Legacy.insert_next_seq P n s = inr (tt, set_counters (λ m, <[P := Some n]> m) s).
Proof.
  intros Hw. unfold Legacy.insert_next_seq.
  by rewrite (bind_step _ _ _ _ _ (touch_ok _ _ _ Hw)).
Qed.

(** What a take of [main.py] that returned has done. *)
Lemma legacy_prefix_take_inr (P : string) (s s1 : db) (code : string) :
  Legacy.prefix_take P s = (inr code, s1) →
  ∃ n, code = Legacy.fmt_synergy P n
       ∧ (id_prefix_counters s !! P = Some (Some n)
          ∨ id_prefix_counters s !! P = None ∧ n = 1)
       ∧ id_prefix_counters s1 !! P = Some (Some (n + 1))
       ∧ same_data s s1.
Proof.
  unfold Legacy.prefix_take. rewrite with_db_inr. unfold Legacy._take_synergy. intros H.
  step_as H Hsel. apply select_next_seq_inr in Hsel as [Hr [= -> ->]].
  destruct (id_prefix_counters s !! P) as [[n|]|] eqn:Hrow.
  - step_as H Hb. unfold Legacy.bump_next_seq in Hb. step_as Hb Ht. returned Hb.
    returned H. exists n. split; [done|]. split; [by left|]. split; [|done].
    cbn [id_prefix_counters set_counters]. rewrite lookup_alter_eq, Hrow. cbn.
    do 2 f_equal; lia.
  - step_as H Hb; try discriminate H.
  - step_as H Hb. unfold Legacy.insert_next_seq in Hb. step_as Hb Ht. returned Hb.
    returned H. exists 1. split; [done|]. split; [by right|]. split; [|done].
    cbn [id_prefix_counters set_counters]. by rewrite lookup_insert_eq.
Qed.

(** The code [GET /prefix/{prefix}/peek] of [main.py] shows is the code
    the next take hands out, as long as the counters can be written; the
    peek itself leaves every table as it was. *)
Theorem legacy_peek_predicts_take (P : string) (s s1 : db) (code : string) :
  Legacy.prefix_peek P s = (inr code, s1) →
  (id_prefix_counters_t, Write) ∉ outage s →
  s1 = s ∧ (Legacy.prefix_take P s).1 = inr code.
Proof.
  unfold Legacy.prefix_peek. rewrite with_db_inr. intros H Hw.
  step_as H Hsel. pose proof Hsel as Hsel'.
  apply select_next_seq_inr in Hsel as [Hr [= -> ->]].
  unfold Legacy.prefix_take, with_db, Legacy._take_synergy.
  rewrite (bind_step _ _ _ _ _ Hsel').
  destruct (id_prefix_counters s !! P) as [[n|]|] eqn:Hrow.
  - returned H. split; [done|].
    by rewrite (bind_step _ _ _ _ _ (legacy_bump_next_seq_ok P _ Hw)).
  - discriminate H.
  - returned H. split; [done|].
    by rewrite (bind_step _ _ _ _ _ (legacy_insert_next_seq_ok P 2 _ Hw)).
Qed.

Lemma legacy_peek_predicts_take_witness :
  lap_ten = lap_ten ∧ (Legacy.prefix_take "LAP" lap_ten).1 = inr "LAP-0011".
Proof.
  apply (legacy_peek_predicts_take "LAP" lap_ten lap_ten "LAP-0011").
  - vm_compute. reflexivity.
  - exact (not_elem_of_nil _).
Defined.

(** Two takes of [main.py] in a row hand out consecutive sequence
    numbers, so different codes. *)
Theorem legacy_takes_are_consecutive (P : string) (s s1 s2 : db) (c1 c2 : string) :
  Legacy.prefix_take P s = (inr c1, s1) →
  Legacy.prefix_take P s1 = (inr c2, s2) →
  (∃ n, c1 = Legacy.fmt_synergy P n ∧ c2 = Legacy.fmt_synergy P (n + 1)) ∧ c1 ≠ c2.
Proof.
  intros H1 H2.
  apply legacy_prefix_take_inr in H1 as (n & -> & _ & Hrow1 & _).
  apply legacy_prefix_take_inr in H2 as (m & -> & [Hrow|[Hrow _]] & _); [|congruence].
  assert (m = n + 1) as -> by congruence.
  split; [by exists n|]. intros Heq. apply legacy_fmt_synergy_inj in Heq. lia.
Qed.

Lemma legacy_takes_are_consecutive_witness :
  (∃ n, "GEN-0001" = Legacy.fmt_synergy "GEN" n
        ∧ "GEN-0002" = Legacy.fmt_synergy "GEN" (n + 1))
  ∧ "GEN-0001" ≠ "GEN-0002".
Proof.
  apply (legacy_takes_are_consecutive "GEN" empty_db
           (Legacy.prefix_take "GEN" empty_db).2
           (Legacy.prefix_take "GEN" (Legacy.prefix_take "GEN" empty_db).2).2).
  - vm_compute. reflexivity.
  - vm_compute. reflexivity.
Defined.

(** ** What an explosion creates *)

Section Sorting.

Context {A : Type} (leb : A → A → bool).

Lemma insert_by_perm (x : A) (l : list A) : insert_by leb x l ≡ₚ x :: l.
Proof.
  induction l as [|y l IH]; cbn [insert_by]; [done|].
  destruct (leb x y); [done|]. rewrite IH. apply Permutation_swap.
Qed.

Lemma order_by_perm (l : list A) : order_by leb l ≡ₚ l.
Proof.
  unfold order_by. induction l as [|x l IH]; cbn [foldr]; [done|].
  by rewrite insert_by_perm, IH.
Qed.

End Sorting.

Lemma NoDup_fmap_filter {A B} (f : A → B) (p : A → bool) (l : list A) :
  NoDup (f <$> l) → NoDup (f <$> List.filter p l).
Proof.
  induction l as [|x l IH]; [done|]. rewrite fmap_cons, NoDup_cons. intros [Hx Hl].
  cbn [List.filter]. destruct (p x); [|by apply IH].
  rewrite fmap_cons, NoDup_cons. split; [|by apply IH].
  intros Hin. apply Hx. apply list_elem_of_fmap in Hin as (y & -> & Hy).
  apply list_elem_of_fmap. exists y. split; [done|].
  apply list_elem_of_In in Hy. apply filter_In in Hy as [Hy _]. by apply list_elem_of_In.
Qed.

Section Created.

Variable po_id : uuid.

Lemma have_of_unit_items (k : option uuid) (ln : explode_row) (added : list inventory_item) :
  Forall (λ it, ∃ code, it = unit_item po_id ln code) added →
  have_of po_id k added
  = if bool_decide (Some (xr_id ln) = k) then Z.of_nat (length added) else 0.
Proof.
  unfold have_of. induction 1 as [|it rest [code ->] _ IH].
  - by case_bool_decide.
  - cbn [List.filter unit_item ii_po_line_id]. unfold of_po at 1.
    cbn [unit_item ii_purchase_order_id]. rewrite bool_decide_eq_true_2 by done.
    cbn [andb]. case_bool_decide; cbn [length] in *; lia.
Qed.

(** The turns of one line: as many items as turns, each the unit of the
    line under some code. *)
Lemma explode_units_items (ln : explode_row) (n : nat) (acc acc1 : explode_acc)
    (s s1 : db) :
  explode_units po_id ln n acc s = inr (acc1, s1) →
  ∃ added, grown_by added s s1 ∧ length added = n
           ∧ created acc1 = created acc + Z.of_nat n
           ∧ Forall (λ it, ∃ code, it = unit_item po_id ln code) added.
Proof.
  revert acc s. induction n as [|n IH]; intros acc s H; cbn [explode_units] in H.
  - returned H. exists []. split; [|split; [done|split; [lia|constructor]]].
    repeat split; try done. by rewrite app_nil_r.
  - step_as H Hcode. destruct a as [code codes].
    assert (Hs0 : grown_by [] s s0).
    { destruct (_ && _) in Hcode.
      - returned Hcode. repeat split; try done. by rewrite app_nil_r.
      - step_as Hcode Hnext. returned Hcode.
        apply get_next_synergy_code_inr in Hnext as (_ & _ & _ & _ & _ & ? & ? & ? & ?).
        repeat split; try done. by rewrite app_nil_r. }
    step_as H Hins. apply insert_inventory_item_inr in Hins as [= _ ->].
    apply IH in H as (added & Hg & Hlen & Hc & Hall).
    cbn [created] in Hc.
    exists (unit_item po_id ln code :: added). split; [|split; [|split]].
    + apply (grown_by_trans [] _ _ _ _ Hs0).
      destruct Hg as (? & ? & ? & Hi). repeat split; try done.
      rewrite Hi. cbn [set_inventory_items inventory_items].
      rewrite <- app_assoc. reflexivity.
    + cbn [length]. by rewrite Hlen.
    + lia.
    + constructor; [by exists code|exact Hall].
Qed.

Lemma explode_row_step_items (counts : gmap (option uuid) Z) (ln : explode_row)
    (acc acc1 : explode_acc) (s s1 : db) :
  explode_row_step po_id counts ln acc s = inr (acc1, s1) →
  ∃ added, grown_by added s s1
           ∧ created acc1 = created acc + Z.of_nat (length added)
           ∧ Forall (λ it, ∃ code, it = unit_item po_id ln code) added
           ∧ Z.of_nat (length added)
             = (if uncategorised ln then 0 else row_need counts ln)
           ∧ (added ≠ [] → uncategorised ln = false).
Proof.
  unfold explode_row_step. intros H. destruct (uncategorised ln).
  - returned H. exists []. cbn [skip_row created length].
    split; [|split; [lia|split; [constructor|done]]].
    repeat split; try done. by rewrite app_nil_r.
  - destruct (Z.leb_spec (row_need counts ln) 0) as [Hle|Hgt].
    + returned H. exists []. cbn [skip_row created length].
      split; [|split; [lia|split; [constructor|split; [|done]]]].
      * repeat split; try done. by rewrite app_nil_r.
      * unfold row_need in *. lia.
    + apply explode_units_items in H as (added & Hg & Hlen & Hc & Hall).
      exists added. rewrite Hlen.
      split; [done|split; [done|split; [done|split; [lia|done]]]].
Qed.

(** The whole loop: the items it adds, the count it keeps of them, and
    how many of them go to each line. *)
Lemma explode_rows_items (counts : gmap (option uuid) Z) (rows : list explode_row)
    (acc acc1 : explode_acc) (s s1 : db) :
  explode_rows po_id counts rows acc s = inr (acc1, s1) →
  ∃ added, grown_by added s s1
           ∧ created acc1 = created acc + Z.of_nat (length added)
           ∧ Forall (λ it, ∃ ln code, ln ∈ rows ∧ uncategorised ln = false
                                      ∧ it = unit_item po_id ln code) added
           ∧ ∀ k, have_of po_id k added = needed_for counts k rows.
Proof.
  revert acc s. induction rows as [|ln rest IH]; intros acc s H; cbn [explode_rows] in H.
  - returned H. exists []. split; [|split; [cbn; lia|split; [constructor|done]]].
    repeat split; try done. by rewrite app_nil_r.
  - step_as H Hstep.
    apply explode_row_step_items in Hstep as (added & Hg & Hc & Hall & Hlen & Hcat).
    apply IH in H as (added' & Hg' & Hc' & Hall' & Hhave').
    exists (added ++ added')%list. split; [by eapply grown_by_trans|].
    split; [rewrite length_app; lia|]. split.
    + apply Forall_app. split.
      * destruct added as [|it0 added0]; [constructor|].
        assert (Hu : uncategorised ln = false) by (by apply Hcat).
        eapply Forall_impl; [exact Hall|]. intros it [code ->].
        exists ln, code. split; [apply elem_of_cons; by left|done].
      * eapply Forall_impl; [exact Hall'|]. intros it (ln' & code & Hin & Hu & ->).
        exists ln', code. split; [apply elem_of_cons; by right|done].
    + intros k. rewrite have_of_app, Hhave', (have_of_unit_items k ln added Hall).
      unfold needed_for, sql_sum. rewrite fmap_cons. cbn [foldr].
      case_bool_decide; cbn [andb]; [|lia].
      destruct (uncategorised ln); cbn [negb]; lia.
Qed.

(** With distinct line ids one row alone feeds a line. *)
Lemma needed_for_row (counts : gmap (option uuid) Z) (rows : list explode_row)
    (ln : explode_row) :
  NoDup (xr_id <$> rows) → ln ∈ rows →
  needed_for counts (Some (xr_id ln)) rows
  = if uncategorised ln then 0 else row_need counts ln.
Proof.
  unfold needed_for, sql_sum. induction rows as [|r rest IH]; intros Hnd Hin.
  - by apply elem_of_nil in Hin.
  - rewrite fmap_cons in Hnd. apply NoDup_cons in Hnd as [Hr Hnd].
    rewrite fmap_cons. cbn [foldr].
    assert (Hzero : ∀ l : list explode_row, xr_id ln ∉ xr_id <$> l →
              foldr Z.add 0
                ((λ r0, if (bool_decide (Some (xr_id r0) = Some (xr_id ln))
                            && negb (uncategorised r0))%bool
                        then row_need counts r0 else 0) <$> l) = 0).
    { induction l as [|x l IHl]; [done|]. rewrite !fmap_cons, not_elem_of_cons.
      intros [Hx Hl]. cbn [foldr]. rewrite IHl by done.
      rewrite bool_decide_eq_false_2 by congruence. reflexivity. }
    apply elem_of_cons in Hin as [->|Hin].
    + rewrite bool_decide_eq_true_2 by done. rewrite Hzero by done.
      cbn [andb]. destruct (uncategorised r); cbn [negb]; lia.
    + rewrite IH by done. rewrite bool_decide_eq_false_2; [cbn [andb]; lia|].
      intros [= Heq]. apply Hr. rewrite Heq. apply list_elem_of_fmap. by exists ln.
Qed.

Lemma explode_rows_of_ids (s : db) :
  NoDup (pl_id <$> po_lines s) → NoDup (xr_id <$> explode_rows_of po_id s).
Proof.
  intros Hnd. unfold explode_rows_of. rewrite <- list_fmap_compose.
  change (NoDup (pl_id <$> order_by by_id
            (List.filter (λ pl, N.eqb (pl_purchase_order_id pl) po_id) (po_lines s)))).
  rewrite order_by_perm. by apply NoDup_fmap_filter.
Qed.

End Created.



(** With distinct line ids an explosion tops every line up exactly: a
    line with a category ends with the greater of what it had and its
    quantity, a line without one with what it had. *)
Theorem explode_tops_up_exactly (po_id : uuid) (s s1 : db) (r : explode_result) :
  NoDup (pl_id <$> po_lines s) →
  explode_by_line po_id s = (inr r, s1) →
  ∀ ln, ln ∈ explode_rows_of po_id s →
    have_of po_id (Some (xr_id ln)) (inventory_items s1)
    = if uncategorised ln then have_of po_id (Some (xr_id ln)) (inventory_items s)
      else Z.max (have_of po_id (Some (xr_id ln)) (inventory_items s)) (row_qty ln).
Proof.
  intros Hnd H ln Hin. unfold explode_by_line in H. rewrite with_db_inr in H.
  apply explode_body_inr in H as (_ & _ & _ & acc1 & Hrows & _).
  apply explode_rows_items in Hrows as (added & (_ & _ & _ & Hitems) & _ & _ & Hhave).
  rewrite Hitems, have_of_app, Hhave.
  rewrite (needed_for_row _ _ _ (explode_rows_of_ids po_id s Hnd) Hin).
  destruct (uncategorised ln); [lia|].
  unfold row_need. rewrite existing_counts_of_have. lia.
Qed.

Lemma explode_tops_up_exactly_witness :
  have_of 7 (Some 1%N) (inventory_items (explode_by_line 7 mixed_order).2)
  = Z.max (have_of 7 (Some 1%N) (inventory_items mixed_order)) 2.
Proof.
  apply (explode_tops_up_exactly 7 mixed_order (explode_by_line 7 mixed_order).2
           {| xres_created := 3; xres_skipped := 4; xres_state := "partial" |}
           ltac:(refine (@bool_decide_unpack (NoDup (pl_id <$> po_lines mixed_order)) _ _);
                 vm_compute; exact I)
           ltac:(vm_compute; reflexivity)
           {| xr_id := 1; xr_qty := 2; xr_unit_cost := None; xr_msrp := None;
              xr_category_id := Some 1%N; xr_prefix := "GEN"; xr_synergy_id := None;
              xr_raw_json := None |}).
  apply list_elem_of_In. vm_compute. auto.
Defined.

(** ** Explosion and statistics together *)

(** When every line of the order that has a category also has a prefix,
    an explosion that returned leaves nothing pending: the statistics
    asked right after report [pending = 0]. *)
Theorem explode_leaves_nothing_pending (po_id : uuid) (s s1 : db) (r : explode_result) :
  (∀ pl, pl ∈ po_lines s → pl_purchase_order_id pl = po_id →
     pl_category_guess pl ≠ None → line_prefix s pl ≠ EmptyString) →
  explode_by_line po_id s = (inr r, s1) →
  ∃ st, mint_stats po_id s1 = (inr st, s1) ∧ ms_pending st = 0.
Proof.
  intros Hpref H. pose proof (explode_by_line_fills po_id s s1 r H) as Hfull.
  unfold explode_by_line in H. rewrite with_db_inr in H.
  apply explode_body_inr in H as (Hi & Hl & Hc & acc1 & Hrows & _).
  apply explode_rows_items in Hrows as (added & (Hlines & Hcats & Hout & Hitems) & _).
  eexists. split.
  - apply mint_stats_inr. rewrite Hout. split; [done|split; [done|split; reflexivity]].
  - cbn [ms_pending]. apply pending_zero, totals_with_minted_filled.
    rewrite Hlines. intros pl Hin Hpo Hq Hcat.
    assert (Hin' : pl ∈ order_by by_id
              (List.filter (λ pl, N.eqb (pl_purchase_order_id pl) po_id) (po_lines s))).
    { rewrite order_by_perm. apply list_elem_of_In, filter_In.
      split; [by apply list_elem_of_In|by apply N.eqb_eq]. }
    unfold explode_rows_of in Hfull.
    specialize (Hfull _ (list_elem_of_fmap_2 _ _ _ Hin')). cbn beta in Hfull.
    unfold uncategorised, row_prefix, row_qty in Hfull.
    cbn [xr_category_id xr_prefix xr_qty xr_id] in Hfull.
    rewrite bool_decide_eq_false_2 in Hfull by done.
    rewrite bool_decide_eq_false_2 in Hfull.
    + specialize (Hfull eq_refl). destruct (default 1 (pl_qty pl)); cbn in Hfull; lia.
    + specialize (Hpref pl Hin Hpo Hcat). unfold line_prefix, Py.or_empty in Hpref.
      by destruct (joined_prefix s (pl_category_guess pl)).
Qed.

Lemma explode_leaves_nothing_pending_witness :
  ∃ st, mint_stats 7 (explode_by_line 7 gen_fresh).2 = (inr st, (explode_by_line 7 gen_fresh).2)
        ∧ ms_pending st = 0.
Proof.
  apply (explode_leaves_nothing_pending 7 gen_fresh (explode_by_line 7 gen_fresh).2
           {| xres_created := 5; xres_skipped := 0; xres_state := "done" |}).
  - intros pl Hin _ _.
    apply elem_of_cons in Hin as [->|Hin]; [vm_compute; discriminate|].
    apply list_elem_of_singleton in Hin as ->. vm_compute. discriminate.
  - vm_compute. reflexivity.
Defined.

(** ** Mint *)

Section Mint.

Lemma mint_rows_nothing (rows : list (uuid * option string)) (updated : Z) (s : db) :
  (∀ r, r ∈ rows → Py.strip (Py.or_empty r.2) = EmptyString) →
  mint_rows rows updated s = inr (updated, s).
Proof.
  induction rows as [|[line_id row_prefix] rest IH]; intros Hall; cbn [mint_rows];
    [reflexivity|].
  assert (Hrow : mint_row (line_id, row_prefix) updated s = inr (updated, s)).
  { unfold mint_row. rewrite bool_decide_eq_true_2; [reflexivity|].
    apply (Hall (line_id, row_prefix)), elem_of_cons. by left. }
  rewrite (bind_step _ _ _ _ _ Hrow). apply IH.
  intros r Hr. apply Hall, elem_of_cons. by right.
Qed.

(** What the loop of [mint_synergy] has done when it returns: it has
    given a code to the lines whose id is one of those it mints for, and
    left every other line, the items and the categories as they were. *)
Lemma mint_rows_inr (rows : list (uuid * option string)) (updated updated1 : Z)
    (s s1 : db) :
  mint_rows rows updated s = inr (updated1, s1) →
  ∃ g, po_lines s1 = map g (po_lines s)
       ∧ (∀ pl, g pl = pl ∨ ∃ code, g pl = with_synergy_id (Some code) pl)
       ∧ (∀ pl, pl_id pl ∉ minted_ids rows → g pl = pl)
       ∧ (∀ pl, pl_id pl ∈ minted_ids rows → is_Some (pl_synergy_id (g pl)))
       ∧ inventory_items s1 = inventory_items s ∧ categories s1 = categories s
       ∧ outage s1 = outage s
       ∧ updated1 = updated + Z.of_nat (length (minted_ids rows)).
Proof.
  revert updated s. induction rows as [|[line_id row_prefix] rest IH]; intros updated s H;
    cbn [mint_rows] in H.
  - returned H. exists id. rewrite map_id. cbn [minted_ids List.filter fmap list_fmap length].
    split; [done|]. split; [by left|]. split; [done|]. split.
    + intros pl Hin. by apply elem_of_nil in Hin.
    + repeat split; try done. lia.
  - step_as H Hrow. unfold mint_row in Hrow. unfold minted_ids. cbn [List.filter snd].
    case_bool_decide as Hp; cbn [negb].
    + returned Hrow. by apply IH.
    + step_as Hrow Hnext. step_as Hrow Hup. returned Hrow.
      apply get_next_synergy_code_inr in Hnext as (n0 & _ & _ & _ & _ & Hl & Hi & Hc & Ho).
      apply update_synergy_id_inr in Hup. simplify_eq.
      apply IH in H as (g & Hg & Hcase & Hout & Hin & Hi' & Hc' & Ho' & ->).
      cbn [set_po_lines po_lines inventory_items categories outage] in *.
      set (h := λ pl, if N.eqb (pl_id pl) line_id
                      then with_synergy_id (Some a0) pl else pl) in *.
      assert (Hh : ∀ pl, pl_id (h pl) = pl_id pl).
      { intros pl. unfold h. by destruct (N.eqb _ _). }
      exists (λ pl, g (h pl)). rewrite fmap_cons. cbn [fst length].
      fold (minted_ids rest).
      split; [by rewrite Hg, Hl, map_map|].
      split; [|split; [|split]].
      * intros pl. unfold h. destruct (N.eqb (pl_id pl) line_id); [|apply Hcase].
        destruct (Hcase (with_synergy_id (Some a0) pl)) as [->|[code ->]]; right.
        -- by exists a0.
        -- by exists code.
      * intros pl Hnot. apply not_elem_of_cons in Hnot as [Hne Hnot].
        assert (h pl = pl) as ->.
        { unfold h. by rewrite (proj2 (N.eqb_neq _ _) Hne). }
        by apply Hout.
      * intros pl Hel. destruct (N.eqb_spec (pl_id pl) line_id) as [Heq|Hne].
        -- unfold h. rewrite (proj2 (N.eqb_eq _ _) Heq).
           destruct (Hcase (with_synergy_id (Some a0) pl)) as [->|[code ->]]; by eexists.
        -- apply elem_of_cons in Hel as [?|Hel]; [done|].
           apply Hin. by rewrite Hh.
      * repeat split; try congruence. lia.
Qed.

(** What [mint_synergy] runs when it does not overwrite. *)
Lemma mint_synergy_inr (now : Z) (po_id : uuid) (line_ids : list uuid) (s s1 : db) (n : Z) :
  mint_synergy now po_id line_ids false s = (inr n, s1) ↔
  ((po_lines_t, Read) ∉ outage s) ∧ ((categories_t, Read) ∉ outage s)
  ∧ mint_rows ((λ pl, (pl_id pl, joined_prefix s (pl_category_guess pl)))
               <$> mint_selection now po_id line_ids s) 0 s = inr (n, s1).
Proof.
  unfold mint_synergy. rewrite with_db_inr. split.
  - intros H. step_as H Hover.
    step_as H Hlines. step_as H Hcats. step_as H Hget. done.
  - intros (H1 & H2 & H).
    rewrite (bind_step _ _ s s tt eq_refl).
    rewrite (bind_step _ _ _ _ _ (touch_ok _ _ _ H1)).
    rewrite (bind_step _ _ _ _ _ (touch_ok _ _ _ H2)).
    rewrite (bind_step get_db _ s s s eq_refl). exact H.
Qed.

Lemma mint_selection_elem (now : Z) (po_id : uuid) (line_ids : list uuid) (s : db)
    (pl : po_line) :
  pl ∈ mint_selection now po_id line_ids s ↔
  pl ∈ po_lines s ∧ pl_purchase_order_id pl = po_id
  ∧ match line_ids with [] => true | _ => in_ids line_ids (pl_id pl) end = true
  ∧ pl_synergy_id pl = None.
Proof.
  unfold mint_selection. rewrite order_by_perm, list_elem_of_In, filter_In,
    <- list_elem_of_In, !andb_true_iff, N.eqb_eq, bool_decide_eq_true. tauto.
Qed.

End Mint.

(** A mint that does not overwrite is idempotent: repeated on the tables
    it left, it updates nothing and changes nothing. *)
Theorem mint_without_overwrite_is_idempotent (now now' : Z) (po_id : uuid)
    (line_ids : list uuid) (s s1 : db) (n : Z) :
  mint_synergy now po_id line_ids false s = (inr n, s1) →
  mint_synergy now' po_id line_ids false s1 = (inr 0, s1).
Proof.
  intros H. apply mint_synergy_inr in H as (H1 & H2 & H).
  apply mint_rows_inr in H as (g & Hg & Hcase & _ & Hin & _ & Hc & Ho & _).
  apply mint_synergy_inr. rewrite Ho. split; [done|split; [done|]].
  apply mint_rows_nothing. intros r Hr.
  apply list_elem_of_fmap in Hr as (pl1 & -> & Hsel). cbn [snd].
  apply mint_selection_elem in Hsel as (Hel & Hpo & Hids & Hnone).
  rewrite Hg in Hel. apply list_elem_of_In, in_map_iff in Hel as (pl & <- & Hel).
  apply list_elem_of_In in Hel.
  assert (Hsame : g pl = pl).
  { destruct (Hcase pl) as [?|[code Hcode]]; [done|]. by rewrite Hcode in Hnone. }
  rewrite Hsame in *. unfold joined_prefix. rewrite Hc. fold (joined_prefix s (pl_category_guess pl)).
  destruct (decide (Py.strip (Py.or_empty (joined_prefix s (pl_category_guess pl)))
                    = EmptyString)) as [?|Hne]; [done|].
  assert (Hminted : pl_id pl ∈ minted_ids
            ((λ pl, (pl_id pl, joined_prefix s (pl_category_guess pl)))
             <$> mint_selection now po_id line_ids s)).
  { unfold minted_ids. apply list_elem_of_fmap.
    exists (pl_id pl, joined_prefix s (pl_category_guess pl)). split; [done|].
    apply list_elem_of_In, filter_In. split.
    - apply list_elem_of_In, list_elem_of_fmap. exists pl. split; [done|].
      by apply mint_selection_elem.
    - cbn [snd]. by rewrite bool_decide_eq_false_2. }
  apply Hin in Hminted as [code Hcode]. rewrite Hsame in Hcode. congruence.
Qed.

Lemma mint_without_overwrite_is_idempotent_witness :
  mint_synergy 1 7 [] false gen_minted = (inr 0, gen_minted).
Proof.
  apply (mint_without_overwrite_is_idempotent 0 1 7 [] gen_fresh gen_minted 2).
  vm_compute. reflexivity.
Defined.

(** With distinct line ids, a mint that does not overwrite changes only
    lines of the order that had no code, and only by giving them one:
    every other line, the items and the categories stay as they were. *)
Theorem mint_without_overwrite_fills_empty_codes_only (now : Z) (po_id : uuid)
    (line_ids : list uuid) (s s1 : db) (n : Z) :
  NoDup (pl_id <$> po_lines s) →
  mint_synergy now po_id line_ids false s = (inr n, s1) →
  Forall2 (λ pl pl1,
             pl1 = pl
             ∨ (pl_purchase_order_id pl = po_id ∧ pl_synergy_id pl = None
                ∧ ∃ code, pl1 = with_synergy_id (Some code) pl))
    (po_lines s) (po_lines s1)
  ∧ inventory_items s1 = inventory_items s
  ∧ categories s1 = categories s
  ∧ 0 ≤ n ≤ Z.of_nat (length (po_lines s)).
Proof.
  intros Hnd H. apply mint_synergy_inr in H as (_ & _ & H).
  apply mint_rows_inr in H as (g & Hg & Hcase & Hout & _ & Hi & Hc & _ & ->).
  set (rows := (λ pl, (pl_id pl, joined_prefix s (pl_category_guess pl)))
               <$> mint_selection now po_id line_ids s) in *.
  assert (Hsel : ∀ pl, pl ∈ po_lines s →
            g pl = pl ∨ (pl_purchase_order_id pl = po_id ∧ pl_synergy_id pl = None)).
  { intros pl Hel.
    destruct (decide (pl_id pl ∈ minted_ids rows)) as [Hin|Hnot];
      [right|left; by apply Hout].
    unfold minted_ids in Hin. apply list_elem_of_fmap in Hin as ([i p] & Hid & Hin).
    apply list_elem_of_In, filter_In in Hin as [Hin _].
    apply list_elem_of_In, list_elem_of_fmap in Hin as (pl' & [= -> ->] & Hin).
    apply mint_selection_elem in Hin as (Hel' & Hpo & _ & Hnone). cbn [fst] in Hid.
    assert (pl' = pl) as ->; [|done].
    apply list_elem_of_lookup in Hel as [i Hi1], Hel' as [j Hj].
    assert (i = j) as ->; [|congruence].
    eapply NoDup_lookup; [exact Hnd| |]; rewrite list_lookup_fmap.
    - by rewrite Hi1.
    - rewrite Hj. cbn. by rewrite Hid. }
  split; [|split; [done|split; [done|split; [lia|]]]].
  - rewrite Hg. clear Hg. induction (po_lines s) as [|pl l IH]; [constructor|].
    cbn [map]. constructor.
    + destruct (Hsel pl) as [?|[Hpo Hnone]]; [apply elem_of_cons; by left|by left|].
      destruct (Hcase pl) as [?|Hcode]; [by left|by right].
    + apply IH; [by apply NoDup_cons in Hnd as [_ ?]|].
      intros pl' Hel. apply Hsel, elem_of_cons. by right.
  - unfold minted_ids, rows. rewrite length_fmap.
    pose proof (List.filter_length_le
                  (λ r : uuid * option string,
                     negb (bool_decide (Py.strip (Py.or_empty r.2) = EmptyString)))
                  ((λ pl, (pl_id pl, joined_prefix s (pl_category_guess pl)))
                   <$> mint_selection now po_id line_ids s)) as Hle1.
    rewrite length_fmap in Hle1.
    assert (Hle2 : (length (mint_selection now po_id line_ids s) ≤ length (po_lines s))%nat).
    { unfold mint_selection. rewrite order_by_perm. apply List.filter_length_le. }
    lia.
Qed.

Lemma mint_without_overwrite_fills_empty_codes_only_witness :
  Forall2 (λ pl pl1,
             pl1 = pl
             ∨ (pl_purchase_order_id pl = 7%N ∧ pl_synergy_id pl = None
                ∧ ∃ code, pl1 = with_synergy_id (Some code) pl))
    (po_lines gen_fresh) (po_lines gen_minted)
  ∧ inventory_items gen_minted = inventory_items gen_fresh
  ∧ categories gen_minted = categories gen_fresh
  ∧ 0 ≤ 2 ≤ Z.of_nat (length (po_lines gen_fresh)).
Proof.
  apply (mint_without_overwrite_fills_empty_codes_only 0 7 [] gen_fresh gen_minted 2).
  - refine (@bool_decide_unpack (NoDup (pl_id <$> po_lines gen_fresh)) _ _).
    vm_compute. exact I.
  - vm_compute. reflexivity.
Defined.

(** ** The counter stays above the data *)

Section AboveData.

Variable P : string.




(** *** Codes that enter the data *)








(** *** Mint *)





End AboveData.





(** *** Explosion *)

Section AboveDataExplode.

Variable P : string.
Variable po_id : uuid.
Hypothesis plain_P : plain P = true.



End AboveDataExplode.



(** Of the endpoints of [routes_synergy.py] that write, only the reset
    can lower a counter: a take, a manual set, a mint and an explosion,
    whatever their arguments and whether they return or raise, leave
    every counter row that held a value with a value at least as high. *)
Theorem only_reset_lowers_a_counter (P : string) (s : db) :
  (∀ Q, counter_kept P s (prefix_take Q s).2)
  ∧ (∀ Q body, counter_kept P s (prefix_set Q body s).2)
  ∧ (∀ now po_id line_ids overwrite,
       counter_kept P s (mint_synergy now po_id line_ids overwrite s).2)
  ∧ (∀ po_id, counter_kept P s (explode_by_line po_id s).2).
Proof.
  split; [|split; [|split]].
  - intros Q. apply prefix_take_keeps_counter.
  - intros Q body. apply prefix_set_keeps_counter.
  - intros now po_id line_ids overwrite. apply mint_synergy_keeps_counter.
  - intros po_id. apply explode_by_line_keeps_counter.
Qed.

(** ** The audit log *)

Section AuditLog.

Lemma log_extended_refl (s : db) : log_extended s s.
Proof. exists []. by rewrite app_nil_r. Qed.

Lemma log_extended_trans (s s1 s2 : db) :
  log_extended s s1 → log_extended s1 s2 → log_extended s s2.
Proof.
  intros [n1 H1] [n2 H2]. exists (n1 ++ n2)%list. by rewrite H2, H1, app_assoc.
Qed.

Lemma log_extended_same (s s1 : db) :
  synergy_id_events s1 = synergy_id_events s → log_extended s s1.
Proof. intros H. exists []. by rewrite app_nil_r. Qed.

Lemma with_db_extends_log {A} (body : M A) (s : db) :
  (∀ a s1, body s = inr (a, s1) → log_extended s s1) →
  log_extended s (with_db body s).2.
Proof.
  intros H. unfold with_db. destruct (body s) as [e|[a s1]] eqn:Hb; cbn [snd].
  - apply log_extended_refl.
  - by eapply H.
Qed.

(** What an allocation that returned has written: the counter row, and
    at most one event at the end of the log. *)
Lemma get_next_synergy_code_log (p : string) actor po line item (s s1 : db) (code : string) :
  _get_next_synergy_code p actor po line item s = inr (code, s1) →
  ∃ n, code = fmt_synergy p n
       ∧ ((((synergy_id_events_t, Write) ∉ outage s) ∧
           synergy_id_events s1
           = (synergy_id_events s ++
              [ {| ev_actor_name := actor; ev_po_id := po; ev_po_line_id := line;
                   ev_inventory_id := item; ev_prefix := p; ev_code := code;
                   ev_seq := n; ev_event_type := "mint";
                   ev_meta := MetaSource "_get_next_synergy_code" |} ])%list)
          ∨ (((synergy_id_events_t, Write) ∈ outage s) ∧
             synergy_id_events s1 = synergy_id_events s)).
Proof.
  unfold _get_next_synergy_code. intros H. step_as H Hres.
  pose proof (reserve_seq_inr _ _ _ _ Hres) as (-> & _ & _).
  step_as H Hup. apply upsert_next_seq_inr in Hup as [Hw [= _ ->]].
  step_as H Hlog. returned H. exists a. split; [done|].
  unfold try_except, log_synergy_event in Hlog.
  destruct (decide ((synergy_id_events_t, Write) ∈ outage s)) as [Hdown|Hok].
  - right. split; [done|].
    rewrite (bind_raise _ _ _ _ (touch_down synergy_id_events_t Write
               (set_counters (λ m, <[p := Some (a + 1)]> m) s) Hdown)) in Hlog.
    by returned Hlog.
  - left. split; [done|].
    rewrite (bind_step _ _ _ _ _ (touch_ok synergy_id_events_t Write
               (set_counters (λ m, <[p := Some (a + 1)]> m) s) Hok)) in Hlog.
    by returned Hlog.
Qed.

Lemma allocation_extends_log (p : string) actor po line item (s s1 : db) (code : string) :
  _get_next_synergy_code p actor po line item s = inr (code, s1) → log_extended s s1.
Proof.
  intros H. apply get_next_synergy_code_log in H as (n & _ & [[_ H]|[_ H]]).
  - by eexists.
  - by apply log_extended_same.
Qed.

Lemma mint_rows_extend_log (rows : list (uuid * option string)) (updated updated1 : Z)
    (s s1 : db) :
  mint_rows rows updated s = inr (updated1, s1) → log_extended s s1.
Proof.
  revert updated s. induction rows as [|[line_id row_prefix] rest IH]; intros updated s H;
    cbn [mint_rows] in H.
  - returned H. apply log_extended_refl.
  - step_as H Hrow. eapply log_extended_trans; [|by eapply IH].
    unfold mint_row in Hrow. case_bool_decide.
    + returned Hrow. apply log_extended_refl.
    + step_as Hrow Hnext. step_as Hrow Hup. returned Hrow.
      apply update_synergy_id_inr in Hup as [= _ ->].
      eapply log_extended_trans; [by eapply allocation_extends_log|].
      by apply log_extended_same.
Qed.

Lemma explode_units_extend_log (po_id : uuid) (ln : explode_row) (n : nat)
    (acc acc1 : explode_acc) (s s1 : db) :
  explode_units po_id ln n acc s = inr (acc1, s1) → log_extended s s1.
Proof.
  revert acc s. induction n as [|n IH]; intros acc s H; cbn [explode_units] in H.
  - returned H. apply log_extended_refl.
  - step_as H Hcode. destruct a as [code codes].
    assert (Hs0 : log_extended s s0).
    { destruct (_ && _) in Hcode.
      - returned Hcode. apply log_extended_refl.
      - step_as Hcode Hnext. returned Hcode. by eapply allocation_extends_log. }
    step_as H Hins. apply insert_inventory_item_inr in Hins as [= _ ->].
    eapply log_extended_trans; [exact Hs0|].
    eapply log_extended_trans; [|by eapply IH]. by apply log_extended_same.
Qed.

Lemma explode_rows_extend_log (po_id : uuid) (counts : gmap (option uuid) Z)
    (rows : list explode_row) (acc acc1 : explode_acc) (s s1 : db) :
  explode_rows po_id counts rows acc s = inr (acc1, s1) → log_extended s s1.
Proof.
  revert acc s. induction rows as [|ln rest IH]; intros acc s H; cbn [explode_rows] in H.
  - returned H. apply log_extended_refl.
  - step_as H Hstep. eapply log_extended_trans; [|by eapply IH].
    unfold explode_row_step in Hstep. destruct (uncategorised ln).
    + returned Hstep. apply log_extended_refl.
    + destruct (row_need counts ln <=? 0).
      * returned Hstep. apply log_extended_refl.
      * by eapply explode_units_extend_log.
Qed.

End AuditLog.

(** While the audit log can be written, a take that returns is audited:
    it appends exactly one event to the log, of type [mint], carrying the
    prefix, the code handed out and the sequence number the code was
    formatted from. *)
Theorem take_is_audited (P : string) (s s1 : db) (code : string) :
  (synergy_id_events_t, Write) ∉ outage s →
  prefix_take P s = (inr code, s1) →
  ∃ n, code = fmt_synergy P n
       ∧ synergy_id_events s1
         = (synergy_id_events s ++
            [ {| ev_actor_name := None; ev_po_id := None; ev_po_line_id := None;
                 ev_inventory_id := None; ev_prefix := P; ev_code := code;
                 ev_seq := n; ev_event_type := "mint";
                 ev_meta := MetaSource "_get_next_synergy_code" |} ])%list.
Proof.
  intros Hok H. apply prefix_take_inr, get_next_synergy_code_log in H
    as (n & Hcode & [[_ H]|[Hdown _]]); [|done].
  by exists n.
Qed.

Lemma take_is_audited_witness :
  ∃ n, "LAP-00011" = fmt_synergy "LAP" n
       ∧ synergy_id_events (prefix_take "LAP" lap_ten).2
         = (synergy_id_events lap_ten ++
            [ {| ev_actor_name := None; ev_po_id := None; ev_po_line_id := None;
                 ev_inventory_id := None; ev_prefix := "LAP"; ev_code := "LAP-00011";
                 ev_seq := n; ev_event_type := "mint";
                 ev_meta := MetaSource "_get_next_synergy_code" |} ])%list.
Proof.
  apply (take_is_audited "LAP" lap_ten (prefix_take "LAP" lap_ten).2 "LAP-00011").
  - exact (not_elem_of_nil _).
  - vm_compute. reflexivity.
Defined.

(** No endpoint of [routes_synergy.py] that writes ever removes or
    rewrites an audit event: after a take, a manual set, a reset, a mint
    or an explosion, returned or raised, the log is the log of before
    with, at most, new events at its end. *)
Theorem audit_log_is_append_only (s : db) :
  (∀ Q, log_extended s (prefix_take Q s).2)
  ∧ (∀ Q body, log_extended s (prefix_set Q body s).2)
  ∧ (∀ Q actor actor_name, log_extended s (prefix_reset Q actor actor_name s).2)
  ∧ (∀ now po_id line_ids overwrite,
       log_extended s (mint_synergy now po_id line_ids overwrite s).2)
  ∧ (∀ po_id, log_extended s (explode_by_line po_id s).2).
Proof.
  split; [|split; [|split; [|split]]].
  - intros Q. unfold prefix_take. apply with_db_extends_log. intros code s1.
    apply allocation_extends_log.
  - intros Q body. unfold prefix_set.
    destruct (int_of_next (sb_next body)) as [nxt|]; [|apply log_extended_refl].
    destruct (nxt <? 1); [apply log_extended_refl|].
    apply with_db_extends_log. intros n s1 H. unfold prefix_set_body in H.
    step_as H Hsel. apply select_next_seq_inr in Hsel as [_ [= -> ->]].
    step_as H Hscan. pose proof (true_max_seq_spec _ _ _ _ Hscan) as (-> & _).
    destruct (nxt <? Z.max _ _); [discriminate|].
    step_as H Hup. apply upsert_next_seq_inr in Hup as [_ [= _ ->]].
    step_as H Hlog. apply log_synergy_event_inr in Hlog as (_ & ev & Hev).
    returned H. simplify_eq. by exists [ev].
  - intros Q actor actor_name.
    destruct (prefix_reset Q actor actor_name s) as [[e|n] s1] eqn:H; cbn [snd].
    + unfold prefix_reset in H. apply with_db_inl in H as [_ ->]. apply log_extended_refl.
    + apply prefix_reset_inr in H as (m & _ & _ & _ & _ & _ & _ & ev & Hev & _).
      by exists [ev].
  - intros now po_id line_ids overwrite. unfold mint_synergy.
    apply with_db_extends_log. intros n s1 H. step_as H Hover.
    assert (Hk0 : log_extended s s0).
    { destruct overwrite; [|returned Hover; apply log_extended_refl].
      destruct line_ids; apply update_synergy_id_inr in Hover as [= _ ->];
        by apply log_extended_same. }
    step_as H H1. step_as H H2. step_as H H3.
    eapply log_extended_trans; [exact Hk0|]. by eapply mint_rows_extend_log.
  - intros po_id. unfold explode_by_line. apply with_db_extends_log. intros r s1 H.
    apply explode_body_inr in H as (_ & _ & _ & acc1 & Hrows & _).
    by eapply explode_rows_extend_log.
Qed.

(** ** Fresh codes *)


